(** * Sentinel-2 NDVI pipeline ([app.py]): embedding and properties

    [app.py] is a straight sequence of calls into Earth Engine, [requests],
    the local file system and [rasterio].  The functions of the script are
    embedded as computations in a state-and-exception monad.  What the
    external collaborators answer is not decided by the script: it is
    given by a record of oracles ([world]), over which the general
    theorems quantify.  The form of [streamlit_ui] only collects the
    arguments of [process] and is not embedded. *)

From Stdlib Require Import ZArith QArith String Ascii List Lia Lqa Bool.
From stdpp Require Import base option gmap sets list strings pretty.

Open Scope string_scope.

(** ** Python values and exceptions *)

Abbreviation bytes := (list Byte.byte).

(** The exception classes of [requests.exceptions]; every one of them is a
    subclass of [RequestException]. *)
Inductive requests_exn :=
  | RequestException
  | HTTPError
  | ConnectionError
  | Timeout
  | TooManyRedirects
  | InvalidURL.

Inductive exn_class :=
  | Requests (c : requests_exn)
  | OSError
  | IndexError
  | EEException
  | RasterioIOError
  | Exception.

Record exn := Exn { exn_cls : exn_class; exn_msg : string }.

(** [isinstance(e, requests.exceptions.RequestException)].  A plain
    [OSError] is not one (the inheritance goes the other way round). *)
Definition is_RequestException (e : exn) : bool :=
  match exn_cls e with
  | Requests _ => true
  | _ => false
  end.

(** An affine geotransform (six coefficients). *)
Record affine := Affine { af_a : Q; af_b : Q; af_c : Q; af_d : Q; af_e : Q; af_f : Q }.

(** The values found in the dictionaries the script handles. *)
Inductive pyval :=
  | PyNone
  | PyBool (b : bool)
  | PyInt (z : Z)
  | PyFloat (q : Q)
  | PyStr (s : string)
  | PyAffine (t : affine).

Abbreviation pydict := (gmap string pyval).

(** [dict.update]: the entries of [upd], from left to right. *)
Definition dict_update (d : pydict) (upd : list (string * pyval)) : pydict :=
  fold_left (fun acc kv => <[kv.1 := kv.2]> acc) upd d.

(** Truth value of a download URL: [None] and the empty string are false. *)
Definition truthy (url : option string) : bool :=
  match url with
  | Some s => negb (String.eqb s "")
  | None => false
  end.

(** [str(n)] for a non-negative integer. *)
Definition str_nat (n : nat) : string := pretty n.

(** ** Rasters *)

(** A numpy array of three dimensions, [shape = (bands, rows, columns)]. *)
Record ndarray := NdArray { shape0 : Z; shape1 : Z; shape2 : Z; cells : list Q }.

(** A file of the local store: the raw body of a download, or a raster
    written through [rasterio] (its profile and its pixels). *)
Inductive file :=
  | Raw (body : bytes)
  | GTiff (meta : pydict) (data : ndarray).

(** A dataset opened for reading. *)
Record dataset := Dataset { ds_name : string; ds_meta : pydict; ds_data : ndarray }.

(** ** Earth Engine client objects

    The client library builds expression objects; nothing is computed until
    a request such as [getDownloadURL] is sent. *)

Record bbox := BBox { xmin : Q; ymin : Q; xmax : Q; ymax : Q }.

Inductive ee_fc :=
  | FeatureCollection (asset : string).

Inductive ee_geometry :=
  | FcGeometry (fc : ee_fc)
  | Rectangle (b : bbox).

Inductive ee_collection :=
  | ImageCollection (id : string)
  | FilterBounds (c : ee_collection) (aoi : ee_fc)
  | FilterDate (c : ee_collection) (start_date end_date : string).

(** The argument of [Image.clip]: the script clips by the feature
    collection once, and by each sub-region. *)
Inductive clipper :=
  | ByCollection (fc : ee_fc)
  | ByGeometry (g : ee_geometry).

Inductive ee_image :=
  | Mean (c : ee_collection)
  | NormalizedDifference (img : ee_image) (bands : list string)
  | Rename (img : ee_image) (names : list string)
  | Clip (img : ee_image) (by_ : clipper).

(** ** Observable effects *)

Inductive event :=
  | EvAuthenticate
  | EvInitialize (project : string)
  | EvGetDownloadURL (img : ee_image) (params : pydict)
  | EvHttpGet (url : string)
  | EvMerge (inputs : list string).

(** Resources held open by the running script. *)
Inductive handle :=
  | HFile (path : string)
  | HRasterIn (path : string)
  | HRasterOut (path : string).

#[global] Instance handle_eq_dec : EqDecision handle.
Proof. solve_decision. Defined.

Record state := State {
  fs : gmap string file;
  handles : list handle;
  stdout : list string;
  trace : list event
}.

Definition set_fs (f : gmap string file → gmap string file) (s : state) : state :=
  State (f (fs s)) (handles s) (stdout s) (trace s).
Definition set_handles (f : list handle → list handle) (s : state) : state :=
  State (fs s) (f (handles s)) (stdout s) (trace s).
Definition set_stdout (f : list string → list string) (s : state) : state :=
  State (fs s) (handles s) (f (stdout s)) (trace s).
Definition set_trace (f : list event → list event) (s : state) : state :=
  State (fs s) (handles s) (stdout s) (f (trace s)).

(** ** The monad: state that survives a raised exception *)

Inductive outcome (A : Type) :=
  | Ret (a : A)
  | Raise (e : exn).
Arguments Ret {A} a.
Arguments Raise {A} e.

Definition M (A : Type) : Type := state → outcome A * state.

Definition ret {A} (a : A) : M A := fun s => (Ret a, s).
Definition raise {A} (e : exn) : M A := fun s => (Raise e, s).
Definition bind {A B} (m : M A) (k : A → M B) : M B :=
  fun s => match m s with
           | (Ret a, s') => k a s'
           | (Raise e, s') => (Raise e, s')
           end.
Definition modify (f : state → state) : M unit := fun s => (Ret tt, f s).
Definition get_state : M state := fun s => (Ret s, s).

Notation "'let*' x ':=' m 'in' k" := (bind m (fun x => k))
  (at level 10, x name, m at level 100, k at level 200).
Notation "m ';;' k" := (bind m (fun _ => k))
  (at level 100, k at level 200, right associativity).

(** [try: body except <class>: handler]. *)
Definition try_except {A} (body : M A) (catches : exn → bool) (handler : exn → M A) : M A :=
  fun s => match body s with
           | (Ret a, s') => (Ret a, s')
           | (Raise e, s') => if catches e then handler e s' else (Raise e, s')
           end.

(** The exit of a [with] block: the handle is released whether the body
    returned or raised. *)
Fixpoint close_handle (h : handle) (hs : list handle) : list handle :=
  match hs with
  | [] => []
  | h' :: hs' => if decide (h = h') then hs' else h' :: close_handle h hs'
  end.
Definition release (h : handle) : M unit :=
  modify (set_handles (close_handle h)).
Definition acquire (h : handle) : M unit :=
  modify (set_handles (fun hs => h :: hs)).
Definition with_block {A} (h : handle) (body : M A) : M A :=
  fun s => match body s with
           | (r, s') => (r, snd (release h s'))
           end.

Definition print (line : string) : M unit :=
  modify (set_stdout (fun out => (out ++ [line])%list)).
Definition emit (e : event) : M unit :=
  modify (set_trace (fun t => (t ++ [e])%list)).

(** ** The external collaborators

    Each field answers one kind of call.  [None] (or [inr]) means the call
    returns; [Some msg] (or [inl]) that it raises, with the message of the
    exception.  The requests for download URLs and the HTTP requests are
    numbered by their position in the batch, so that two requests with the
    same arguments may be answered differently.  [os_written] is the number
    of bytes that have reached the file when a write fails. *)

Record response := Response { status_code : Z; reason : string; content : bytes }.

Record world := World {
  ee_Authenticate : option exn;
  ee_Initialize : string → option exn;
  ee_getDownloadURL : nat → ee_image → pydict → exn + option string;
  requests_get : nat → string → (requests_exn * string) + response;
  os_makedirs : string → option string;
  os_open_wb : string → option string;
  os_write : string → bytes → option string;
  os_written : string → bytes → nat;
  gdal_decode : string → bytes → string + (pydict * ndarray);
  rasterio_merge : list dataset → exn + (ndarray * affine);
  rasterio_create : string → pydict → option string;
  rasterio_write : string → ndarray → option string
}.

(** ** Paths: [os.path.join] and [glob] (POSIX) *)

Fixpoint strip_prefix (p s : string) : option string :=
  match p, s with
  | EmptyString, _ => Some s
  | String a p', String b s' => if Ascii.eqb a b then strip_prefix p' s' else None
  | String _ _, EmptyString => None
  end.

Definition starts_with (p s : string) : bool :=
  match strip_prefix p s with Some _ => true | None => false end.

Definition ends_with (suffix s : string) : bool :=
  let n := String.length suffix in
  let m := String.length s in
  (n <=? m)%nat && String.eqb (substring (m - n) n s) suffix.

Fixpoint has_slash (s : string) : bool :=
  match s with
  | EmptyString => false
  | String c s' => Ascii.eqb c "/" || has_slash s'
  end.

(** The directory part of a joined path: a separator is added unless the
    directory is empty or already ends with one. *)
Definition dir_prefix (folder : string) : string :=
  if String.eqb folder "" || ends_with "/" folder then folder else folder +:+ "/".

(** [os.path.join(a, b)]: an absolute [b] discards [a]. *)
Definition path_join (a b : string) : string :=
  if starts_with "/" b then b else dir_prefix a +:+ b.

(** [fnmatch(name, "*.tif")] as [glob] applies it to the entries of one
    directory: the name ends in [.tif], and, since the pattern does not
    start with a dot, a name that starts with a dot is not matched. *)
Definition matches_star_tif (name : string) : bool :=
  ends_with ".tif" name && negb (starts_with "." name).

(** The entry name of [path] if it lies directly in [folder]. *)
Definition entry_of (folder path : string) : option string :=
  match strip_prefix (dir_prefix folder) path with
  | Some name => if has_slash name || String.eqb name "" then None else Some name
  | None => None
  end.

(** [glob(os.path.join(folder, "*.tif"))] over the store: a flat scan of
    [folder].  Paths are identified by their spelling, and [folder] is taken
    literally: this is what [glob] does for a [literal_folder] (below).
    When [folder] holds a metacharacter, [glob] reads the directory part as
    a pattern too, which a store without directories cannot follow; the
    properties that depend on which paths the scan lists are stated for
    literal folders.  The order of the result is the one in which the store
    lists its entries; Python leaves it unspecified. *)
Definition in_glob_tif (folder path : string) : bool :=
  match entry_of folder path with
  | Some name => matches_star_tif name
  | None => false
  end.

Definition glob_tif (store : gmap string file) (folder : string) : list string :=
  List.filter (in_glob_tif folder) (map fst (map_to_list store)).

(** [glob.has_magic]: the text holds one of the characters [*], [?] and
    [[]. *)
Fixpoint has_magic (s : string) : bool :=
  match s with
  | EmptyString => false
  | String c s' =>
      Ascii.eqb c "*" || Ascii.eqb c "?" || Ascii.eqb c "[" || has_magic s'
  end.

(** A folder that [glob] takes as it is written: no metacharacter, and no
    doubled separator at the end (which [os.path.split] would drop from
    the paths it lists). *)
Definition literal_folder (folder : string) : bool :=
  negb (has_magic folder) && negb (ends_with "//" folder).

(** ** The functions of [app.py] *)

(** Lifting an oracle's answer. *)
Definition may_raise (cls : exn_class) (answer : option string) : M unit :=
  match answer with
  | Some msg => raise (Exn cls msg)
  | None => ret tt
  end.

Definition may_raise_exn (answer : option exn) : M unit :=
  match answer with
  | Some e => raise e
  | None => ret tt
  end.

(** Lines 10-12. *)
Definition initialize_ee (w : world) (project : string) : M unit :=
  emit EvAuthenticate;;
  may_raise_exn (ee_Authenticate w);;
  emit (EvInitialize project);;
  may_raise_exn (ee_Initialize w project).

(** Lines 15-18. *)
Definition load_aoi_from_gee (aoi_path : string) : ee_fc :=
  FeatureCollection aoi_path.

(** Lines 21-23. *)
Definition load_sentinel_image_collection (aoi : ee_fc) (start_date end_date : string)
  : ee_image :=
  let s2 := ImageCollection "COPERNICUS/S2_HARMONIZED" in
  Mean (FilterDate (FilterBounds s2 aoi) start_date end_date).

(** Lines 26-27. *)
Definition compute_ndvi (image : ee_image) : ee_image :=
  Rename (NormalizedDifference image ["B8"; "B4"]) ["NDVI"].

(** Lines 30-31. *)
Definition clip_image_to_aoi (image : ee_image) (aoi : ee_fc) : ee_image :=
  Clip image (ByCollection aoi).

(** The dictionary literal of line 35. *)
Definition export_params : pydict :=
  dict_update ∅ [("scale", PyInt 10); ("crs", PyStr "EPSG:4326");
                 ("filePerBand", PyBool false); ("format", PyStr "GeoTIFF")].

(** Lines 34-35; [k] numbers the request within the batch. *)
Definition get_download_url (w : world) (k : nat) (ndvi_image : ee_image)
    (region : ee_geometry) : M (option string) :=
  let img := Clip ndvi_image (ByGeometry region) in
  emit (EvGetDownloadURL img export_params);;
  match ee_getDownloadURL w k img export_params with
  | inl e => raise e
  | inr url => ret url
  end.

(** [requests.get(url)]: a transport failure raises a subclass of
    [RequestException]; the session that [requests.get] opens is closed
    inside the call. *)
Definition http_get (w : world) (i : nat) (url : string) : M response :=
  emit (EvHttpGet url);;
  match requests_get w i url with
  | inl (cls, msg) => raise (Exn (Requests cls) msg)
  | inr r => ret r
  end.

(** [Response.raise_for_status()]: [HTTPError] for a status from 400 to
    599, nothing otherwise. *)
Definition raise_for_status (url : string) (r : response) : M unit :=
  let code := status_code r in
  if (400 <=? code)%Z && (code <? 500)%Z then
    raise (Exn (Requests HTTPError)
               (pretty code +:+ " Client Error: " +:+ reason r +:+ " for url: " +:+ url))
  else if (500 <=? code)%Z && (code <? 600)%Z then
    raise (Exn (Requests HTTPError)
               (pretty code +:+ " Server Error: " +:+ reason r +:+ " for url: " +:+ url))
  else ret tt.

(** [with open(path, "wb") as f: f.write(data)].  Opening creates or
    truncates the file.  When the write (or the flush at the close) fails,
    the file keeps the part of the body that had reached it: a prefix of
    [data], whose length the system decides.  The handle is released on
    every exit. *)
Definition write_binary_file (w : world) (path : string) (data : bytes) : M unit :=
  may_raise OSError (os_open_wb w path);;
  modify (set_fs (insert path (Raw [])));;
  acquire (HFile path);;
  with_block (HFile path)
    (match os_write w path data with
     | Some msg =>
         modify (set_fs (insert path (Raw (take (os_written w path data) data))));;
         raise (Exn OSError msg)
     | None => modify (set_fs (insert path (Raw data)))
     end).

Definition tile_name (i : nat) : string := "image_" +:+ str_nat i +:+ ".tif".

(** The body of the loop of lines 41-50 for slot [i]. *)
Definition download_one (w : world) (output_folder : string) (i : nat)
    (url : option string) : M unit :=
  match url with
  | Some u =>
      if truthy url then
        try_except
          (let* response := http_get w i u in
           raise_for_status u response;;
           write_binary_file w (path_join output_folder (tile_name i)) (content response);;
           print ("Downloaded image " +:+ str_nat (i + 1)))
          is_RequestException
          (fun e => print ("Error downloading image " +:+ str_nat (i + 1) +:+ ": "
                           +:+ exn_msg e))
      else ret tt
  | None => ret tt
  end.

(** [for i, url in enumerate(download_urls)], from index [i] on. *)
Fixpoint download_loop (w : world) (output_folder : string) (i : nat)
    (download_urls : list (option string)) : M unit :=
  match download_urls with
  | [] => ret tt
  | url :: rest =>
      download_one w output_folder i url;;
      download_loop w output_folder (S i) rest
  end.

(** Lines 38-50. *)
Definition download_images (w : world) (download_urls : list (option string))
    (output_folder : string) : M unit :=
  may_raise OSError (os_makedirs w output_folder);;
  download_loop w output_folder 0 download_urls.

(** What [rasterio.open(path)] reads from the store: a raster written
    through [rasterio] is read back as it was written; a raw download is
    decoded by the raster library. *)
Definition read_raster (w : world) (store : gmap string file) (path : string)
  : exn + dataset :=
  match store !! path with
  | None => inl (Exn RasterioIOError (path +:+ ": No such file or directory"))
  | Some (GTiff meta data) => inr (Dataset path meta data)
  | Some (Raw body) =>
      match gdal_decode w path body with
      | inl msg => inl (Exn RasterioIOError msg)
      | inr (meta, data) => inr (Dataset path meta data)
      end
  end.

(** [rasterio.open(path)] for reading.  The dataset stays open until it is
    closed explicitly. *)
Definition rasterio_open (w : world) (path : string) : M dataset :=
  let* st := get_state in
  match read_raster w (fs st) path with
  | inl e => raise e
  | inr ds => acquire (HRasterIn path);; ret ds
  end.

(** A list comprehension with an effectful element expression: the
    elements are evaluated from left to right and the first exception ends
    the comprehension. *)
Fixpoint for_each {A B} (f : A → M B) (l : list A) : M (list B) :=
  match l with
  | [] => ret []
  | x :: l' =>
      let* y := f x in
      let* ys := for_each f l' in
      ret (y :: ys)
  end.

(** [src_files_to_mosaic[0]]. *)
Definition first_item {A} (l : list A) : M A :=
  match l with
  | [] => raise (Exn IndexError "list index out of range")
  | x :: _ => ret x
  end.

(** Pixel store of a raster that was created and not written yet. *)
Definition blank : ndarray := NdArray 0 0 0 [].

(** [with rasterio.open(path, "w", **meta) as dest: dest.write(data)]. *)
Definition write_raster (w : world) (path : string) (meta : pydict) (data : ndarray)
  : M unit :=
  may_raise RasterioIOError (rasterio_create w path meta);;
  modify (set_fs (insert path (GTiff meta blank)));;
  acquire (HRasterOut path);;
  with_block (HRasterOut path)
    (may_raise RasterioIOError (rasterio_write w path data);;
     modify (set_fs (insert path (GTiff meta data)))).

(** The profile of the output raster, lines 60-67. *)
Definition output_meta (first : dataset) (mosaic : ndarray) (out_trans : affine) : pydict :=
  dict_update (ds_meta first)
    [("driver", PyStr "GTiff");
     ("count", PyInt (shape0 mosaic));
     ("width", PyInt (shape2 mosaic));
     ("height", PyInt (shape1 mosaic));
     ("transform", PyAffine out_trans)].

(** Lines 54-55. *)
Definition scan_folders (store : gmap string file) (folders : list string) : list string :=
  concat (map (glob_tif store) folders).

(** Lines 53-72. *)
Definition mosaic_tif_images (w : world) (folders : list string) (output_file : string)
  : M unit :=
  let* st := get_state in
  let tif_files := scan_folders (fs st) folders in
  let* src_files_to_mosaic := for_each (rasterio_open w) tif_files in
  emit (EvMerge (map ds_name src_files_to_mosaic));;
  match rasterio_merge w src_files_to_mosaic with
  | inl e => raise e
  | inr (mosaic, out_trans) =>
      let* first := first_item src_files_to_mosaic in
      let out_meta := output_meta first mosaic out_trans in
      write_raster w output_file out_meta mosaic;;
      print ("Mosaic created successfully at " +:+ output_file)
  end.

Section Pipeline.

(** [split_bounds] is called on line 86 and defined nowhere in [app.py]:
    the pipeline is parametric in it. *)
Variable split_bounds : ee_geometry → Z → list ee_geometry.

(** Line 89: one request per sub-region, in order. *)
Fixpoint resolve_urls (w : world) (ndvi_image : ee_image) (k : nat)
    (sub_regions : list ee_geometry) : M (list (option string)) :=
  match sub_regions with
  | [] => ret []
  | region :: rest =>
      let* url := get_download_url w k ndvi_image region in
      let* urls := resolve_urls w ndvi_image (S k) rest in
      ret (url :: urls)
  end.

(** Lines 75-96. *)
Definition process (w : world) (aoi : ee_fc) (num_splits : Z)
    (start_date end_date output_folder : string) : M string :=
  initialize_ee w "ee-bordamit";;
  let image := load_sentinel_image_collection aoi start_date end_date in
  let ndvi := compute_ndvi image in
  let ndvi_clipped := clip_image_to_aoi ndvi aoi in
  let sub_regions := split_bounds (FcGeometry aoi) num_splits in
  let* download_urls := resolve_urls w ndvi_clipped 0 sub_regions in
  download_images w download_urls output_folder;;
  mosaic_tif_images w [output_folder] "mosaic_output.tif";;
  ret "Mosaic created successfully!".

End Pipeline.

(** ** What the catalog computes for an image expression

    Pixel values are carried as exact rationals; a pixel without a value
    is masked. *)

Definition pixel : Type := Z * Z.
Definition band : Type := pixel → option Q.
Definition raster : Type := list (string * band).

Fixpoint band_of (name : string) (r : raster) : option band :=
  match r with
  | [] => None
  | (n, f) :: r' => if String.eqb n name then Some f else band_of name r'
  end.

(** [normalizedDifference] on one pixel, as the catalog documents it:
    [(first - second) / (first + second)]; a negative input masks the
    pixel.  The script does not decide what a zero sum gives: the pixel is
    left without a value here. *)
Definition normalized_difference (first second : option Q) : option Q :=
  match first, second with
  | Some a, Some b =>
      if negb (Qle_bool 0 a) || negb (Qle_bool 0 b) then None
      else if Qeq_bool (a + b) 0 then None
      else Some ((a - b) / (a + b))%Q
  | _, _ => None
  end.

Section Pixels.

(** The composite the catalog holds for a collection, and the pixels a
    clipping geometry keeps. *)
Variable composite : ee_collection → raster.
Variable inside : clipper → pixel → bool.

(** [None]: the catalog rejects the expression (a band it names does not
    exist, or the number of new names is wrong). *)
Fixpoint pixels (img : ee_image) : option raster :=
  match img with
  | Mean c => Some (composite c)
  | NormalizedDifference img' [b1; b2] =>
      match pixels img' with
      | Some r =>
          match band_of b1 r, band_of b2 r with
          | Some f, Some g => Some [("nd", fun p => normalized_difference (f p) (g p))]
          | _, _ => None
          end
      | None => None
      end
  | NormalizedDifference _ _ => None
  | Rename img' names =>
      match pixels img' with
      | Some r =>
          if (length names =? length r)%nat
          then Some (zip names (map snd r))
          else None
      | None => None
      end
  | Clip img' c =>
      match pixels img' with
      | Some r =>
          Some (map (fun nf : string * band =>
                       (nf.1, fun p => if inside c p then nf.2 p else None)) r)
      | None => None
      end
  end.

End Pixels.

(** ** The region splitter *)

(** Modelled from the spec: [split_bounds], which [process] calls and
    [app.py] does not define.  The spec (4.4) asks for a uniform grid that
    divides the bounding box into N cells along one axis, without gaps:
    cell [i] spans the [i]-th N-th of the width and the whole height. *)
Definition cut (b : bbox) (n i : Z) : Q :=
  (xmin b + inject_Z i * (xmax b - xmin b) / inject_Z n)%Q.

Definition cell (b : bbox) (n i : Z) : bbox :=
  BBox (cut b n i) (ymin b) (cut b n (i + 1)) (ymax b).

Definition split_bounds (b : bbox) (n : Z) : list bbox :=
  map (cell b n) (seqZ 0 n).

(** A point of the plane lies in a box (borders included). *)
Definition contains (b : bbox) (x y : Q) : Prop :=
  (xmin b <= x /\ x <= xmax b /\ ymin b <= y /\ y <= ymax b)%Q.

(** Two boxes with the same coordinates. *)
Definition same_box (a b : bbox) : Prop :=
  (xmin a == xmin b /\ ymin a == ymin b /\ xmax a == xmax b /\ ymax a == ymax b)%Q.

(** The splitter as [process] uses it: [bounds] is the bounding box the
    catalog reports for a geometry. *)
Definition split_geometry (bounds : ee_geometry → bbox) (g : ee_geometry) (n : Z)
  : list ee_geometry :=
  map Rectangle (split_bounds (bounds g) n).

(** ** Reading the final state *)

Definition run {A} (m : M A) (s : state) : outcome A * state := m s.

Definition is_export_request (e : event) : bool :=
  match e with EvGetDownloadURL _ _ => true | _ => false end.
Definition is_authenticate (e : event) : bool :=
  match e with EvAuthenticate => true | _ => false end.
Definition is_initialize (e : event) : bool :=
  match e with EvInitialize _ => true | _ => false end.
Definition is_http_get (e : event) : bool :=
  match e with EvHttpGet _ => true | _ => false end.

Definition export_requests (t : list event) : list event := List.filter is_export_request t.
Definition initializations (t : list event) : nat :=
  length (List.filter is_initialize t).
Definition authentications (t : list event) : nat :=
  length (List.filter is_authenticate t).

Definition empty_state : state := State ∅ [] [] [].

(** The profile and the pixels of a one-band 2x2 tile, and the array and
    transform of two such tiles side by side. *)
Definition tile_meta : pydict :=
  dict_update ∅ [("driver", PyStr "GTiff"); ("dtype", PyStr "float32");
                 ("nodata", PyNone); ("width", PyInt 2); ("height", PyInt 2);
                 ("count", PyInt 1); ("crs", PyStr "EPSG:4326");
                 ("transform", PyAffine (Affine 1 0 0 0 (-1) 0))].
Definition tile_data : ndarray := NdArray 1 2 2 [1; 2; 3; 4]%Q.
Definition merged_data : ndarray := NdArray 1 2 4 [1; 2; 1; 2; 3; 4; 3; 4]%Q.
Definition merged_transform : affine := Affine 1 0 0 0 (-1) 0.

Definition tiff_magic : bytes := [Byte.x49; Byte.x49; Byte.x2a; Byte.x00].

(** A world in which every collaborator answers and nothing fails: every
    download is a 200 with a four-byte body, every raw tile decodes to a
    one-band 2x2 raster and the merge returns a one-band 2x4 array. *)
Definition fair_world : world :=
  {| ee_Authenticate := None;
     ee_Initialize := fun _ => None;
     ee_getDownloadURL := fun k _ _ => inr (Some ("https://ee.example/tile/" +:+ str_nat k));
     requests_get := fun _ _ => inr (Response 200 "OK" tiff_magic);
     os_makedirs := fun _ => None;
     os_open_wb := fun _ => None;
     os_write := fun _ _ => None;
     os_written := fun _ _ => 0%nat;
     gdal_decode := fun _ _ => inr (tile_meta, tile_data);
     rasterio_merge := fun _ => inr (merged_data, merged_transform);
     rasterio_create := fun _ _ => None;
     rasterio_write := fun _ _ => None |}.

Definition unit_box : bbox := BBox 0 0 1 1.
Definition test_aoi : ee_fc := FeatureCollection "users/your_username/Botad".
Definition test_splitter : ee_geometry → Z → list ee_geometry :=
  split_geometry (fun _ => unit_box).

(** Worlds that differ from [fair_world] in one collaborator. *)

(** No file can be created. *)
Definition readonly_world : world :=
  {| ee_Authenticate := ee_Authenticate fair_world;
     ee_Initialize := ee_Initialize fair_world;
     ee_getDownloadURL := ee_getDownloadURL fair_world;
     requests_get := requests_get fair_world;
     os_makedirs := os_makedirs fair_world;
     os_open_wb := fun _ => Some "[Errno 13] Permission denied";
     os_write := os_write fair_world;
     os_written := os_written fair_world;
     gdal_decode := gdal_decode fair_world;
     rasterio_merge := rasterio_merge fair_world;
     rasterio_create := rasterio_create fair_world;
     rasterio_write := rasterio_write fair_world |}.

(** Every download is answered with the given status. *)
Definition status_world (code : Z) (why : string) : world :=
  {| ee_Authenticate := ee_Authenticate fair_world;
     ee_Initialize := ee_Initialize fair_world;
     ee_getDownloadURL := ee_getDownloadURL fair_world;
     requests_get := fun _ _ => inr (Response code why tiff_magic);
     os_makedirs := os_makedirs fair_world;
     os_open_wb := os_open_wb fair_world;
     os_write := os_write fair_world;
     os_written := os_written fair_world;
     gdal_decode := gdal_decode fair_world;
     rasterio_merge := rasterio_merge fair_world;
     rasterio_create := rasterio_create fair_world;
     rasterio_write := rasterio_write fair_world |}.

(** The downloads of slots 1 and 3 are answered 404 and 503. *)
Definition flaky_world : world :=
  {| ee_Authenticate := ee_Authenticate fair_world;
     ee_Initialize := ee_Initialize fair_world;
     ee_getDownloadURL := ee_getDownloadURL fair_world;
     requests_get := fun i _ =>
       match i with
       | 1 => inr (Response 404 "Not Found" [])
       | 3 => inr (Response 503 "Service Unavailable" [])
       | _ => inr (Response 200 "OK" tiff_magic)
       end;
     os_makedirs := os_makedirs fair_world;
     os_open_wb := os_open_wb fair_world;
     os_write := os_write fair_world;
     os_written := os_written fair_world;
     gdal_decode := gdal_decode fair_world;
     rasterio_merge := rasterio_merge fair_world;
     rasterio_create := rasterio_create fair_world;
     rasterio_write := rasterio_write fair_world |}.

(** The catalog rejects the second export request. *)
Definition quota_world : world :=
  {| ee_Authenticate := ee_Authenticate fair_world;
     ee_Initialize := ee_Initialize fair_world;
     ee_getDownloadURL := fun k img params =>
       match k with
       | 1 => inl (Exn EEException "Total request size exceeds the limit")
       | _ => ee_getDownloadURL fair_world k img params
       end;
     requests_get := requests_get fair_world;
     os_makedirs := os_makedirs fair_world;
     os_open_wb := os_open_wb fair_world;
     os_write := os_write fair_world;
     os_written := os_written fair_world;
     gdal_decode := gdal_decode fair_world;
     rasterio_merge := rasterio_merge fair_world;
     rasterio_create := rasterio_create fair_world;
     rasterio_write := rasterio_write fair_world |}.

Definition five_urls : list (option string) :=
  [Some "https://ee.example/tile/0"; Some "https://ee.example/tile/1";
   Some "https://ee.example/tile/2"; Some "https://ee.example/tile/3";
   Some "https://ee.example/tile/4"].

(** The file system accepts every creation and every write. *)
Definition files_writable (w : world) : Prop :=
  (∀ path, os_open_wb w path = None) ∧ (∀ path data, os_write w path data = None).

(** The body stored for slot [i], if the slot stores one: the URL is
    truthy, the request is answered, and the status is not one that
    [raise_for_status] rejects. *)
Definition tile_body (w : world) (i : nat) (url : option string) : option bytes :=
  match url with
  | Some u =>
      if truthy url then
        match requests_get w i u with
        | inr r =>
            if ((400 <=? status_code r) && (status_code r <? 600))%Z then None
            else Some (content r)
        | inl _ => None
        end
      else None
  | None => None
  end.

(** The store after the slots [i], [i+1], ... have been handled. *)
Fixpoint store_after (w : world) (folder : string) (i : nat)
    (urls : list (option string)) (store : gmap string file) : gmap string file :=
  match urls with
  | [] => store
  | url :: rest =>
      store_after w folder (S i) rest
        (match tile_body w i url with
         | Some b => <[path_join folder (tile_name i) := Raw b]> store
         | None => store
         end)
  end.

(** An empty tile folder next to a file that is not a tile. *)
Definition stray_state : state :=
  State {[ "downloaded_images/readme.txt" := Raw [] ]} [] [] [].

(** Two tiles side by side, written by an earlier run. *)
Definition east_tile_meta : pydict :=
  <["transform" := PyAffine (Affine 1 0 2 0 (-1) 0)]> tile_meta.

Definition two_tiles_state : state :=
  State {[ "downloaded_images/image_0.tif" := GTiff tile_meta tile_data;
           "downloaded_images/image_1.tif" := GTiff east_tile_meta tile_data ]}
        [] [] [].

(** The merge of the tiles is refused. *)
Definition merge_fails_world : world :=
  {| ee_Authenticate := ee_Authenticate fair_world;
     ee_Initialize := ee_Initialize fair_world;
     ee_getDownloadURL := ee_getDownloadURL fair_world;
     requests_get := requests_get fair_world;
     os_makedirs := os_makedirs fair_world;
     os_open_wb := os_open_wb fair_world;
     os_write := os_write fair_world;
     os_written := os_written fair_world;
     gdal_decode := gdal_decode fair_world;
     rasterio_merge := fun _ => inl (Exn Exception "CRS mismatch");
     rasterio_create := rasterio_create fair_world;
     rasterio_write := rasterio_write fair_world |}.

(** A file whose name starts with a dot, next to nothing else. *)
Definition hidden_tile_state : state :=
  State {[ "downloaded_images/.partial.tif" := GTiff tile_meta tile_data ]} [] [] [].

(** The request [process] sends for one sub-region, and the image it
    sends it for. *)
Definition export_request (ndvi_image : ee_image) (region : ee_geometry) : event :=
  EvGetDownloadURL (Clip ndvi_image (ByGeometry region)) export_params.

Definition ndvi_clipped_of (aoi : ee_fc) (start_date end_date : string) : ee_image :=
  clip_image_to_aoi (compute_ndvi (load_sentinel_image_collection aoi start_date end_date))
                    aoi.

Definition is_local_event (e : event) : bool :=
  match e with
  | EvHttpGet _ | EvMerge _ => true
  | _ => false
  end.

(** The catalog accepts the session and answers every export request. *)
Definition catalog_answers (w : world) : Prop :=
  ee_Authenticate w = None
  ∧ ee_Initialize w "ee-bordamit" = None
  ∧ ∀ k img, ∃ url, ee_getDownloadURL w k img export_params = inr url.

(** A composite in which NIR is 200 and RED is 100 at every pixel. *)
Definition flat_composite (_ : ee_collection) : raster :=
  [("B4", λ _, Some 100%Q); ("B8", λ _, Some 200%Q)].

(** The URLs of a batch for which a request is made: the truthy ones, in
    the order of the batch. *)
Definition live_urls (urls : list (option string)) : list string :=
  omap (λ url : option string, if truthy url then url else None) urls.

(** The number of slots, from slot [i] on, that store a body. *)
Fixpoint stored_count (w : world) (i : nat) (urls : list (option string)) : nat :=
  match urls with
  | [] => 0
  | url :: rest =>
      (match tile_body w i url with Some _ => 1 | None => 0 end
       + stored_count w (S i) rest)%nat
  end.

(** No download succeeds: every request ends in a transport error or in a
    status that [raise_for_status] rejects. *)
Definition no_download (w : world) : Prop :=
  ∀ i u, match requests_get w i u with
         | inl _ => True
         | inr r => (400 ≤ status_code r < 600)%Z
         end.

(** The disk fills up while the only tile is written. *)
Definition full_disk_world : world :=
  {| ee_Authenticate := ee_Authenticate fair_world;
     ee_Initialize := ee_Initialize fair_world;
     ee_getDownloadURL := ee_getDownloadURL fair_world;
     requests_get := requests_get fair_world;
     os_makedirs := os_makedirs fair_world;
     os_open_wb := os_open_wb fair_world;
     os_write := fun _ _ => Some "[Errno 28] No space left on device";
     os_written := fun _ _ => 2%nat;
     gdal_decode := gdal_decode fair_world;
     rasterio_merge := rasterio_merge fair_world;
     rasterio_create := rasterio_create fair_world;
     rasterio_write := rasterio_write fair_world |}.

(** The body of a download that is not a raster. *)
Definition corrupt_world : world :=
  {| ee_Authenticate := ee_Authenticate fair_world;
     ee_Initialize := ee_Initialize fair_world;
     ee_getDownloadURL := ee_getDownloadURL fair_world;
     requests_get := requests_get fair_world;
     os_makedirs := os_makedirs fair_world;
     os_open_wb := os_open_wb fair_world;
     os_write := os_write fair_world;
     os_written := os_written fair_world;
     gdal_decode := fun path _ => inl (path +:+ ": not recognized as a supported file format");
     rasterio_merge := rasterio_merge fair_world;
     rasterio_create := rasterio_create fair_world;
     rasterio_write := rasterio_write fair_world |}.

(** A good tile of an earlier run next to an empty one. *)
Definition mixed_tiles_state : state :=
  State {[ "downloaded_images/image_0.tif" := Raw [];
           "downloaded_images/image_1.tif" := GTiff east_tile_meta tile_data ]}
        [] [] [].

(** The raster library cannot write the pixels. *)
Definition write_fails_world : world :=
  {| ee_Authenticate := ee_Authenticate fair_world;
     ee_Initialize := ee_Initialize fair_world;
     ee_getDownloadURL := ee_getDownloadURL fair_world;
     requests_get := requests_get fair_world;
     os_makedirs := os_makedirs fair_world;
     os_open_wb := os_open_wb fair_world;
     os_write := os_write fair_world;
     os_written := os_written fair_world;
     gdal_decode := gdal_decode fair_world;
     rasterio_merge := rasterio_merge fair_world;
     rasterio_create := rasterio_create fair_world;
     rasterio_write := fun _ _ => Some "Source shape is inconsistent with given indexes" |}.

(** The credentials are refused. *)
Definition locked_world : world :=
  {| ee_Authenticate := Some (Exn EEException "Please authorize access to your Earth Engine account");
     ee_Initialize := ee_Initialize fair_world;
     ee_getDownloadURL := ee_getDownloadURL fair_world;
     requests_get := requests_get fair_world;
     os_makedirs := os_makedirs fair_world;
     os_open_wb := os_open_wb fair_world;
     os_write := os_write fair_world;
     os_written := os_written fair_world;
     gdal_decode := gdal_decode fair_world;
     rasterio_merge := rasterio_merge fair_world;
     rasterio_create := rasterio_create fair_world;
     rasterio_write := rasterio_write fair_world |}.

(** What the downloader may change between two states: it holds no
    handle at the end, only adds HTTP requests to the trace, leaves the
    files outside [paths] as they are and removes none. *)
Record slot_frame (paths : string → Prop) (st st' : state) : Prop := {
  frame_handles : handles st' = handles st;
  frame_trace : ∃ evs, trace st' = (trace st ++ evs)%list
                       ∧ Forall (λ e, is_http_get e = true) evs;
  frame_other : ∀ path, ¬ paths path → fs st' !! path = fs st !! path;
  frame_keeps : ∀ path, is_Some (fs st !! path) → is_Some (fs st' !! path)
}.

(** ** Strings and paths *)

Section StringFacts.

Lemma app_cons c p x : String c p +:+ x = String c (p +:+ x).
Proof. reflexivity. Qed.

Lemma app_empty x : "" +:+ x = x.
Proof. reflexivity. Qed.

Lemma strip_prefix_app p x : strip_prefix p (p +:+ x) = Some x.
Proof.
  induction p as [|c p IH]; [by destruct x|].
  rewrite app_cons. cbn. rewrite Ascii.eqb_refl. exact IH.
Qed.

Lemma strip_prefix_Some p s x : strip_prefix p s = Some x → s = p +:+ x.
Proof.
  revert s. induction p as [|c p IH]; intros s H.
  - destruct s; cbn in H; by inversion H.
  - destruct s as [|d s]; [discriminate|]. cbn in H.
    destruct (Ascii.eqb c d) eqn:E; [|discriminate].
    apply Ascii.eqb_eq in E. subst d. rewrite app_cons. f_equal. by apply IH.
Qed.

Lemma has_slash_app a b : has_slash (a +:+ b) = has_slash a || has_slash b.
Proof.
  induction a as [|c a IH]; [reflexivity|].
  rewrite app_cons. cbn. rewrite IH. by rewrite orb_assoc.
Qed.

Lemma length_app_string a b :
  String.length (a +:+ b) = (String.length a + String.length b)%nat.
Proof.
  induction a as [|c a IH]; [done|]. rewrite app_cons. cbn. by rewrite IH.
Qed.

Lemma substring_skip a b n :
  substring (String.length a) n (a +:+ b) = substring 0 n b.
Proof. induction a as [|c a IH]; [done|]. rewrite app_cons. cbn. exact IH. Qed.

Lemma substring_all b : substring 0 (String.length b) b = b.
Proof. induction b as [|c b IH]; cbn; [done|]. by rewrite IH. Qed.

Lemma app_assoc_string a b c : a +:+ (b +:+ c) = (a +:+ b) +:+ c.
Proof.
  induction a as [|x a IH]; [done|]. rewrite !app_cons. by rewrite IH.
Qed.

Lemma ends_with_app a suffix : ends_with suffix (a +:+ suffix) = true.
Proof.
  unfold ends_with. rewrite length_app_string.
  replace (String.length a + String.length suffix - String.length suffix)%nat
    with (String.length a) by lia.
  rewrite substring_skip, substring_all, String.eqb_refl, andb_true_r.
  apply Nat.leb_le. lia.
Qed.

Lemma app_cancel_r a b t : a +:+ t = b +:+ t → a = b.
Proof.
  revert b. induction a as [|c a IH]; intros [|d b] H.
  - done.
  - apply (f_equal String.length) in H.
    rewrite app_empty, app_cons in H. cbn in H.
    rewrite length_app_string in H. lia.
  - apply (f_equal String.length) in H.
    rewrite app_empty, app_cons in H. cbn in H.
    rewrite length_app_string in H. lia.
  - rewrite !app_cons in H. inversion H. f_equal. by apply IH.
Qed.

(** Decimal numerals contain no path separator. *)
Lemma pretty_N_go_no_slash x s : has_slash s = false → has_slash (pretty_N_go x s) = false.
Proof.
  revert s. induction (N.lt_wf_0 x) as [x _ IH]; intros s Hs.
  assert (x = 0 ∨ 0 < x)%N as [->|?] by lia.
  - by rewrite pretty_N_go_0.
  - rewrite pretty_N_go_step by done. apply IH.
    { by apply N.div_lt. }
    cbn. rewrite Hs, orb_false_r.
    unfold pretty_N_char. by repeat case_match.
Qed.

Lemma str_nat_no_slash n : has_slash (str_nat n) = false.
Proof.
  unfold str_nat, pretty, pretty_nat, pretty, pretty_N.
  case_decide; [reflexivity|]. by apply pretty_N_go_no_slash.
Qed.

Lemma tile_name_inj i j : tile_name i = tile_name j → i = j.
Proof.
  unfold tile_name. intros H.
  apply (inj (String.app "image_")) in H.
  apply app_cancel_r in H. by apply (inj pretty) in H.
Qed.

Lemma tile_name_no_slash i : has_slash (tile_name i) = false.
Proof.
  unfold tile_name. rewrite !has_slash_app, str_nat_no_slash. reflexivity.
Qed.

Lemma tile_name_matches i : matches_star_tif (tile_name i) = true.
Proof.
  unfold matches_star_tif, tile_name.
  rewrite (app_assoc_string "image_" (str_nat i) ".tif").
  rewrite ends_with_app. reflexivity.
Qed.

Lemma path_join_tile folder i :
  path_join folder (tile_name i) = dir_prefix folder +:+ tile_name i.
Proof. reflexivity. Qed.

Lemma tile_path_inj folder i j :
  path_join folder (tile_name i) = path_join folder (tile_name j) → i = j.
Proof.
  rewrite !path_join_tile. intros H.
  apply (inj (String.app _)) in H. by apply tile_name_inj.
Qed.

Lemma tile_name_nonempty i : String.eqb (tile_name i) "" = false.
Proof. reflexivity. Qed.

Lemma tile_in_glob folder i :
  in_glob_tif folder (path_join folder (tile_name i)) = true.
Proof.
  unfold in_glob_tif, entry_of. rewrite path_join_tile, strip_prefix_app.
  rewrite tile_name_no_slash, tile_name_nonempty. cbn [orb].
  apply tile_name_matches.
Qed.

End StringFacts.

(** ** Running a computation *)

Section MonadFacts.
Context {A B : Type}.

Lemma run_ret (a : A) s : run (ret a) s = (Ret a, s).
Proof. reflexivity. Qed.

Lemma run_raise e s : run (raise e : M A) s = (Raise e, s).
Proof. reflexivity. Qed.

Lemma run_bind (m : M A) (k : A → M B) s :
  run (bind m k) s =
    match run m s with
    | (Ret a, s') => run (k a) s'
    | (Raise e, s') => (Raise e, s')
    end.
Proof. reflexivity. Qed.

Lemma run_try_except (body : M A) catches handler s :
  run (try_except body catches handler) s =
    match run body s with
    | (Ret a, s') => (Ret a, s')
    | (Raise e, s') => if catches e then run (handler e) s' else (Raise e, s')
    end.
Proof. reflexivity. Qed.

Lemma run_with_block h (body : M A) s :
  run (with_block h body) s =
    ((run body s).1, set_handles (close_handle h) (run body s).2).
Proof. unfold run, with_block. by destruct (body s). Qed.
End MonadFacts.

Lemma run_modify f s : run (modify f) s = (Ret tt, f s).
Proof. reflexivity. Qed.

Lemma run_get_state s : run get_state s = (Ret s, s).
Proof. reflexivity. Qed.

Lemma run_may_raise cls answer s :
  run (may_raise cls answer) s =
    match answer with Some msg => (Raise (Exn cls msg), s) | None => (Ret tt, s) end.
Proof. by destruct answer. Qed.

Lemma run_may_raise_exn answer s :
  run (may_raise_exn answer) s =
    match answer with Some e => (Raise e, s) | None => (Ret tt, s) end.
Proof. by destruct answer. Qed.

Create Rewrite HintDb mrun.
#[export] Hint Rewrite @run_ret @run_raise @run_bind @run_try_except @run_with_block
  run_modify run_get_state run_may_raise run_may_raise_exn : mrun.

Ltac msimpl := repeat (autorewrite with mrun; cbn [fst snd]).

Lemma close_handle_head h hs : close_handle h (h :: hs) = hs.
Proof. cbn. by rewrite decide_True. Qed.

(** ** The downloader *)

Section Downloader.

Variable w : world.
Variable folder : string.

Abbreviation tile_path i := (path_join folder (tile_name i)).

Lemma write_binary_file_ok path data st :
  files_writable w →
  ∃ st', run (write_binary_file w path data) st = (Ret tt, st')
         ∧ fs st' = <[path := Raw data]> (fs st)
         ∧ handles st' = handles st
         ∧ trace st' = trace st.
Proof.
  intros [Hopen Hwrite]. unfold write_binary_file, acquire, release. msimpl.
  rewrite Hopen. msimpl. rewrite Hwrite. msimpl.
  eexists; split; [reflexivity|]. cbn.
  rewrite insert_insert_eq, decide_True by done. done.
Qed.

Lemma rejected_status (r : response) :
  ((400 <=? status_code r) && (status_code r <? 600))%Z =
  ((400 <=? status_code r) && (status_code r <? 500))%Z
  || ((500 <=? status_code r) && (status_code r <? 600))%Z.
Proof.
  destruct (400 <=? status_code r)%Z eqn:?, (status_code r <? 600)%Z eqn:?,
    (status_code r <? 500)%Z eqn:?, (500 <=? status_code r)%Z eqn:?; cbn; try done; lia.
Qed.

Lemma raise_for_status_rejected u r st :
  ((400 <=? status_code r) && (status_code r <? 600))%Z = true →
  ∃ e, run (raise_for_status u r) st = (Raise e, st) ∧ is_RequestException e = true.
Proof.
  rewrite rejected_status. unfold raise_for_status. intros E.
  destruct ((400 <=? status_code r)%Z && (status_code r <? 500)%Z); [by eexists|].
  destruct ((500 <=? status_code r)%Z && (status_code r <? 600)%Z); [by eexists|done].
Qed.

Lemma raise_for_status_accepted u r st :
  ((400 <=? status_code r) && (status_code r <? 600))%Z = false →
  run (raise_for_status u r) st = (Ret tt, st).
Proof.
  rewrite rejected_status. unfold raise_for_status. intros E.
  destruct ((400 <=? status_code r)%Z && (status_code r <? 500)%Z); [done|].
  by destruct ((500 <=? status_code r)%Z && (status_code r <? 600)%Z).
Qed.

Lemma download_one_ok i url st :
  files_writable w →
  ∃ st', run (download_one w folder i url) st = (Ret tt, st')
         ∧ fs st' = match tile_body w i url with
                    | Some b => <[tile_path i := Raw b]> (fs st)
                    | None => fs st
                    end
         ∧ handles st' = handles st.
Proof.
  intros Hfiles. unfold download_one, tile_body.
  destruct url as [u|]; [|by eexists].
  destruct (truthy (Some u)); [|by eexists].
  unfold http_get, emit, print. msimpl.
  destruct (requests_get w i u) as [[cls msg]|r]; msimpl.
  { cbn. eexists; split; [reflexivity|]. by split. }
  destruct ((400 <=? status_code r)%Z && (status_code r <? 600)%Z) eqn:E.
  { edestruct (raise_for_status_rejected u r) as (e & -> & ->); [done|].
    msimpl. eexists; split; [reflexivity|]. by split. }
  rewrite raise_for_status_accepted by done. msimpl.
  match goal with |- context [run (write_binary_file w ?p ?d) ?s] =>
    destruct (write_binary_file_ok p d s Hfiles) as (s1 & Hrun & Hfs & Hh & _) end.
  rewrite Hrun. msimpl.
  eexists; split; [reflexivity|]. cbn. by rewrite Hfs, Hh.
Qed.

Lemma slot_frame_refl paths st : slot_frame paths st st.
Proof.
  split; try done. exists []. by rewrite app_nil_r.
Qed.

Lemma slot_frame_trans (P Q R : string → Prop) s1 s2 s3 :
  (∀ p, P p → R p) → (∀ p, Q p → R p) →
  slot_frame P s1 s2 → slot_frame Q s2 s3 → slot_frame R s1 s3.
Proof.
  intros HP HQ [h1 (e1 & t1 & f1) o1 k1] [h2 (e2 & t2 & f2) o2 k2]. split.
  - congruence.
  - exists (e1 ++ e2)%list. rewrite t2, t1, app_assoc. split; [done|].
    by apply Forall_app.
  - intros p Hp. rewrite o2, o1; [done|..]; naive_solver.
  - auto.
Qed.

Lemma download_one_frame i url st :
  slot_frame (λ p, p = tile_path i) st (run (download_one w folder i url) st).2
  ∧ ∀ e, (run (download_one w folder i url) st).1 = Raise e → exn_cls e = OSError.
Proof.
  unfold download_one.
  destruct url as [u|]; [|split; [apply slot_frame_refl|done]].
  destruct (truthy (Some u)); [|split; [apply slot_frame_refl|done]].
  assert (Hget : ∀ s, slot_frame (λ p, p = tile_path i) s
                        (set_trace (λ t, (t ++ [EvHttpGet u])%list) s)).
  { intros s. split; try done. cbn. eexists; split; [done|]. by repeat constructor. }
  assert (Hout : ∀ s line, slot_frame (λ p, p = tile_path i) s
                        (set_stdout (λ out, (out ++ [line])%list) s)).
  { intros s line. split; try done. cbn. exists []. by rewrite app_nil_r. }
  unfold http_get, emit, print, write_binary_file, acquire, release. msimpl.
  destruct (requests_get w i u) as [[cls msg]|r]; msimpl.
  { cbn [is_RequestException exn_cls]. msimpl. split; [|done].
    eapply slot_frame_trans; [| |apply Hget|apply Hout]; auto. }
  destruct ((400 <=? status_code r)%Z && (status_code r <? 600)%Z) eqn:E.
  { edestruct (raise_for_status_rejected u r) as (e & -> & ->); [done|].
    msimpl. split; [|done].
    eapply slot_frame_trans; [| |apply Hget|apply Hout]; auto. }
  rewrite raise_for_status_accepted by done.
  msimpl. destruct (os_open_wb w _); msimpl.
  + cbn. split; [|by intros ? [= <-]]. apply Hget.
  + destruct (os_write w _ _); msimpl; cbn;
      (split; [|try done; by intros ? [= <-]]);
      (split; cbn;
       [by rewrite ?decide_True
       |eexists; split; [done|by repeat constructor]
       |intros p Hp; by rewrite ?lookup_insert_ne
       |intros p Hp; destruct (decide (p = tile_path i)) as [->|];
        rewrite ?lookup_insert_eq, ?lookup_insert_ne by done; done]).
Qed.

Lemma download_loop_frame urls i st :
  slot_frame (λ p, ∃ k, k < length urls ∧ p = tile_path (i + k)) st
             (run (download_loop w folder i urls) st).2
  ∧ ∀ e, (run (download_loop w folder i urls) st).1 = Raise e → exn_cls e = OSError.
Proof.
  revert i st. induction urls as [|url rest IH]; intros i st.
  { split; [apply slot_frame_refl|done]. }
  cbn [download_loop]. msimpl.
  destruct (download_one_frame i url st) as [Hone Hexn].
  destruct (run (download_one w folder i url) st) as [[[]|e] s1]; cbn [fst snd] in *.
  - destruct (IH (S i) s1) as [Hrest Hexn'].
    split; [|done].
    eapply slot_frame_trans; [| |apply Hone|apply Hrest].
    + intros p ->. exists 0. split; [cbn; lia|]. by rewrite Nat.add_0_r.
    + intros p (k & Hk & ->). exists (S k). split; [cbn; lia|].
      by rewrite Nat.add_succ_r.
  - split; [|done].
    eapply slot_frame_trans; [| |apply Hone|apply (slot_frame_refl (λ _, False))];
      [|by intros p []].
    intros p ->. exists 0. split; [cbn; lia|]. by rewrite Nat.add_0_r.
Qed.

Lemma download_loop_ok urls i st :
  files_writable w →
  ∃ st', run (download_loop w folder i urls) st = (Ret tt, st')
         ∧ fs st' = store_after w folder i urls (fs st)
         ∧ handles st' = handles st.
Proof.
  intros Hfiles. revert i st. induction urls as [|url rest IH]; intros i st.
  { by eexists. }
  cbn [download_loop store_after]. msimpl.
  destruct (download_one_ok i url st Hfiles) as (s1 & -> & Hfs & Hh).
  destruct (IH (S i) s1) as (s2 & -> & Hfs' & Hh').
  eexists; split; [done|]. rewrite Hfs', Hfs, Hh', Hh. done.
Qed.

Lemma download_loop_app pre rest i st :
  run (download_loop w folder i (pre ++ rest)) st =
    match run (download_loop w folder i pre) st with
    | (Ret _, s1) => run (download_loop w folder (i + length pre) rest) s1
    | (Raise e, s1) => (Raise e, s1)
    end.
Proof.
  revert i st. induction pre as [|url pre IH]; intros i st.
  { cbn. by rewrite Nat.add_0_r. }
  cbn [app download_loop length]. msimpl.
  destruct (run (download_one w folder i url) st) as [[[]|e] s1]; [|done].
  rewrite IH. by rewrite Nat.add_succ_r.
Qed.

Lemma store_after_other urls i store path :
  (∀ k, k < length urls → path ≠ tile_path (i + k)) →
  store_after w folder i urls store !! path = store !! path.
Proof.
  revert i store. induction urls as [|url rest IH]; intros i store Hne; [done|].
  cbn [store_after]. rewrite IH.
  - destruct (tile_body w i url); [|done].
    rewrite lookup_insert_ne; [done|].
    specialize (Hne 0). rewrite Nat.add_0_r in Hne. intros Heq.
    apply Hne; [cbn; lia|done].
  - intros k Hk. specialize (Hne (S k)). rewrite Nat.add_succ_r in Hne.
    apply Hne. cbn. lia.
Qed.

Lemma store_after_slot urls i store k url :
  urls !! k = Some url →
  store_after w folder i urls store !! tile_path (i + k) =
    match tile_body w (i + k) url with
    | Some b => Some (Raw b)
    | None => store !! tile_path (i + k)
    end.
Proof.
  revert i store k. induction urls as [|url0 rest IH]; intros i store k Hk; [done|].
  destruct k as [|k]; cbn [store_after].
  - injection Hk as ->. rewrite Nat.add_0_r.
    rewrite store_after_other.
    + destruct (tile_body w i url); [by rewrite lookup_insert_eq|done].
    + intros k _ Heq. apply tile_path_inj in Heq. lia.
  - replace (i + S k) with (S i + k) by lia.
    rewrite (IH (S i) _ k Hk).
    destruct (tile_body w (S i + k) url); [done|].
    destruct (tile_body w i url0); [|done].
    rewrite lookup_insert_ne; [done|].
    intros Heq. apply tile_path_inj in Heq. lia.
Qed.

End Downloader.


Lemma truthy_Some u : u ≠ "" → truthy (Some u) = true.
Proof.
  intros Hu. cbn. apply negb_true_iff. by apply String.eqb_neq.
Qed.

Lemma rejected_iff (r : response) :
  ((400 <=? status_code r) && (status_code r <? 600))%Z = true
  ↔ (400 ≤ status_code r < 600)%Z.
Proof. rewrite andb_true_iff, Z.leb_le, Z.ltb_lt. done. Qed.

(** C1 (amended).  When the destination directory can be created and the
    tile files can be created and written, [download_images] returns
    without raising for every sequence of URLs and every behaviour of the
    transport.  A slot whose URL is a non-empty string and whose GET is
    answered with a status outside 400-599 (every 2xx status is one)
    leaves the body of the answer in [image_<i>.tif]; a slot whose URL is
    [None] or empty, whose GET raises a transport error, or whose answer
    has a status from 400 to 599 leaves its file as it was; no other path
    of the store changes. *)
Theorem download_images_tolerant w urls folder st :
  os_makedirs w folder = None →
  files_writable w →
  ∃ st',
    run (download_images w urls folder) st = (Ret tt, st')
    ∧ (∀ i u r,
         urls !! i = Some (Some u) → u ≠ "" →
         requests_get w i u = inr r →
         ¬ (400 ≤ status_code r < 600)%Z →
         fs st' !! path_join folder (tile_name i) = Some (Raw (content r)))
    ∧ (∀ i url,
         urls !! i = Some url →
         url = None ∨ url = Some ""
         ∨ (∃ u failure, url = Some u ∧ requests_get w i u = inl failure)
         ∨ (∃ u r, url = Some u ∧ requests_get w i u = inr r
                   ∧ (400 ≤ status_code r < 600)%Z) →
         fs st' !! path_join folder (tile_name i)
         = fs st !! path_join folder (tile_name i))
    ∧ (∀ path,
         (∀ i, i < length urls → path ≠ path_join folder (tile_name i)) →
         fs st' !! path = fs st !! path).
Proof.
  intros Hdir Hfiles. unfold download_images. msimpl. rewrite Hdir.
  destruct (download_loop_ok w folder urls 0 st Hfiles) as (st' & Hrun & Hfs & _).
  exists st'. split; [done|]. rewrite Hfs. repeat split.
  - intros i u r Hi Hu Hget Hcode.
    rewrite (store_after_slot w folder urls 0 _ i _ Hi). cbn [Nat.add].
    unfold tile_body. rewrite truthy_Some, Hget by done.
    destruct ((400 <=? status_code r)%Z && (status_code r <? 600)%Z) eqn:E; [|done].
    by apply rejected_iff in E.
  - intros i url Hi Hwhy.
    rewrite (store_after_slot w folder urls 0 _ i _ Hi). cbn [Nat.add].
    unfold tile_body.
    destruct Hwhy as [->|[->|[(u & failure & -> & Hget)|(u & r & -> & Hget & Hcode)]]];
      try done.
    + rewrite Hget. by destruct (truthy (Some u)).
    + rewrite Hget. apply rejected_iff in Hcode. rewrite Hcode.
      by destruct (truthy (Some u)).
  - intros path Hpath. by apply store_after_other.
Qed.

(** Five URLs, two of them answered 404 and 503: the run returns and
    exactly the three other tiles are stored. *)
Lemma download_images_tolerant_witness :
  os_makedirs flaky_world "downloaded_images" = None
  ∧ files_writable flaky_world
  ∧ ∃ st',
      run (download_images flaky_world five_urls "downloaded_images") empty_state
      = (Ret tt, st')
      ∧ fs st' !! "downloaded_images/image_0.tif" = Some (Raw tiff_magic)
      ∧ fs st' !! "downloaded_images/image_1.tif" = None
      ∧ fs st' !! "downloaded_images/image_2.tif" = Some (Raw tiff_magic)
      ∧ fs st' !! "downloaded_images/image_3.tif" = None
      ∧ fs st' !! "downloaded_images/image_4.tif" = Some (Raw tiff_magic)
      ∧ size (fs st') = 3.
Proof.
  split; [reflexivity|]. split; [by split|].
  destruct (download_images_tolerant flaky_world five_urls "downloaded_images"
              empty_state eq_refl (conj (λ _, eq_refl) (λ _ _, eq_refl)))
    as (st' & Hrun & Hgood & Hbad & Hother).
  exists st'. split; [exact Hrun|].
  split; [exact (Hgood 0 _ _ eq_refl ltac:(discriminate) eq_refl ltac:(cbn; lia))|].
  split; [refine (eq_trans (Hbad 1 _ eq_refl _) eq_refl);
          right; right; right; do 2 eexists; repeat split; cbn; lia|].
  split; [exact (Hgood 2 _ _ eq_refl ltac:(discriminate) eq_refl ltac:(cbn; lia))|].
  split; [refine (eq_trans (Hbad 3 _ eq_refl _) eq_refl);
          right; right; right; do 2 eexists; repeat split; cbn; lia|].
  split; [exact (Hgood 4 _ _ eq_refl ltac:(discriminate) eq_refl ltac:(cbn; lia))|].
  vm_compute in Hrun. injection Hrun as <-. vm_compute. reflexivity.
Defined.

(** C1 as stated fails on the code.  With one URL that is answered 200:
    when the tile file cannot be created, the [OSError] leaves
    [download_images].  And an answer with status 304 is not a 2xx
    answer, yet [raise_for_status] lets it pass and its body is stored. *)
Lemma download_images_counterexample :
  (run (download_images readonly_world [Some "https://ee.example/tile/0"]
          "downloaded_images") empty_state).1
  = Raise (Exn OSError "[Errno 13] Permission denied")
  ∧ fs (run (download_images (status_world 304 "Not Modified")
               [Some "https://ee.example/tile/0"] "downloaded_images") empty_state).2
       !! "downloaded_images/image_0.tif"
    = Some (Raw tiff_magic).
Proof. split; vm_compute; reflexivity. Qed.

Lemma download_images_raises_os w urls folder st e :
  (run (download_images w urls folder) st).1 = Raise e → exn_cls e = OSError.
Proof.
  unfold download_images. msimpl.
  destruct (os_makedirs w folder); [by intros [= <-]|].
  apply download_loop_frame.
Qed.

(** C9.  Only transport errors are absorbed by the loop.  No exception that
    leaves [download_images] is a [RequestException]; and when the slots
    before a URL have been handled, its GET is answered with an accepted
    status, and creating or writing its tile file raises [OSError], that
    error leaves [download_images] at once: the outcome and the final
    state are the same whatever URLs follow, and the trace ends with the
    GET of that slot, so none of the later URLs is requested. *)
Theorem download_images_oserror_aborts w folder pre u r post st st1 msg :
  run (download_images w pre folder) st = (Ret tt, st1) →
  u ≠ "" →
  requests_get w (length pre) u = inr r →
  ¬ (400 ≤ status_code r < 600)%Z →
  os_open_wb w (path_join folder (tile_name (length pre))) = Some msg
  ∨ (os_open_wb w (path_join folder (tile_name (length pre))) = None
     ∧ os_write w (path_join folder (tile_name (length pre))) (content r) = Some msg) →
  (∀ urls s e, (run (download_images w urls folder) s).1 = Raise e →
               is_RequestException e = false)
  ∧ ∃ st',
      run (download_images w (pre ++ Some u :: post) folder) st
      = (Raise (Exn OSError msg), st')
      ∧ (∀ post', run (download_images w (pre ++ Some u :: post') folder) st
                  = (Raise (Exn OSError msg), st'))
      ∧ trace st' = (trace st1 ++ [EvHttpGet u])%list.
Proof.
  intros Hpre Hu Hget Hcode Hos. split.
  { intros urls s e He. apply download_images_raises_os in He.
    unfold is_RequestException. by rewrite He. }
  assert (Hone : ∃ st', run (download_one w folder (length pre) (Some u)) st1
                        = (Raise (Exn OSError msg), st')
                        ∧ trace st' = (trace st1 ++ [EvHttpGet u])%list).
  { unfold download_one. rewrite truthy_Some by done.
    unfold http_get, emit, print, write_binary_file, acquire, release. msimpl.
    rewrite Hget. msimpl.
    rewrite raise_for_status_accepted
      by (apply not_true_is_false; by rewrite rejected_iff).
    msimpl. destruct Hos as [Hopen|[Hopen Hwrite]].
    - rewrite Hopen. msimpl. cbn. by eexists.
    - rewrite Hopen. msimpl. rewrite Hwrite. msimpl. cbn. by eexists. }
  destruct Hone as (st' & Hone & Htrace). exists st'.
  assert (Hall : ∀ rest, run (download_images w (pre ++ Some u :: rest) folder) st
                         = (Raise (Exn OSError msg), st')).
  { intros rest. revert Hpre. unfold download_images. msimpl.
    destruct (os_makedirs w folder); [discriminate|]. intros Hpre.
    rewrite download_loop_app, Hpre. cbn [download_loop Nat.add]. msimpl.
    by rewrite Hone. }
  by repeat split.
Qed.

(** Three URLs, and no file can be created: the first slot raises and the
    two other URLs are never requested. *)
Lemma download_images_oserror_aborts_witness :
  ∃ st',
    run (download_images readonly_world
           ([] ++ Some "https://ee.example/tile/0"
               :: [Some "https://ee.example/tile/1"; Some "https://ee.example/tile/2"])
           "downloaded_images") empty_state
    = (Raise (Exn OSError "[Errno 13] Permission denied"), st')
    ∧ trace st' = [EvHttpGet "https://ee.example/tile/0"]
    ∧ fs st' = ∅.
Proof.
  destruct (download_images_oserror_aborts readonly_world "downloaded_images" []
              "https://ee.example/tile/0" (Response 200 "OK" tiff_magic)
              [Some "https://ee.example/tile/1"; Some "https://ee.example/tile/2"]
              empty_state empty_state "[Errno 13] Permission denied"
              eq_refl ltac:(discriminate) eq_refl ltac:(cbn; lia) (or_introl eq_refl))
    as (_ & st' & Hrun & _ & Htrace).
  exists st'. split; [exact Hrun|]. split; [exact Htrace|].
  vm_compute in Hrun. by injection Hrun as <-.
Defined.

(** ** The mosaicker *)

Section Mosaicker.

Variable w : world.

Lemma rasterio_open_run path st :
  run (rasterio_open w path) st =
    match read_raster w (fs st) path with
    | inl e => (Raise e, st)
    | inr ds => (Ret ds, set_handles (cons (HRasterIn path)) st)
    end.
Proof.
  unfold rasterio_open, acquire. msimpl.
  by destruct (read_raster w (fs st) path).
Qed.

Lemma read_raster_name store path ds :
  read_raster w store path = inr ds → ds_name ds = path.
Proof.
  unfold read_raster. intros H.
  destruct (store !! path) as [[body|meta data]|]; [|by injection H as <-|done].
  destruct (gdal_decode w path body) as [|[meta data]]; [done|by injection H as <-].
Qed.

(** The comprehension of line 57 changes nothing but the open handles:
    every dataset it has opened is still open when it ends, whether it
    ends with the list or with an exception. *)
Lemma open_all_run paths st :
  fs (run (for_each (rasterio_open w) paths) st).2 = fs st
  ∧ trace (run (for_each (rasterio_open w) paths) st).2 = trace st
  ∧ stdout (run (for_each (rasterio_open w) paths) st).2 = stdout st
  ∧ match (run (for_each (rasterio_open w) paths) st).1 with
    | Ret dss =>
        Forall2 (λ p ds, read_raster w (fs st) p = inr ds) paths dss
        ∧ handles (run (for_each (rasterio_open w) paths) st).2
          = (rev (map HRasterIn paths) ++ handles st)%list
    | Raise e =>
        ∃ k, k < length paths
             ∧ handles (run (for_each (rasterio_open w) paths) st).2
               = (rev (map HRasterIn (take k paths)) ++ handles st)%list
    end.
Proof.
  revert st. induction paths as [|p paths IH]; intros st.
  { cbn. repeat split; constructor. }
  cbn [for_each]. msimpl. rewrite rasterio_open_run.
  destruct (read_raster w (fs st) p) as [e|ds] eqn:Hread.
  { cbn. repeat split. exists 0. split; [lia|done]. }
  cbn beta iota. msimpl.
  specialize (IH (set_handles (cons (HRasterIn p)) st)).
  destruct (run (for_each (rasterio_open w) paths) _) as [[dss|e] s1];
    cbn [fst snd set_handles fs trace stdout handles] in *.
  - msimpl. cbn [fst snd]. destruct IH as (Hfs & Htr & Hout & Hall & Hh).
    repeat split; try done.
    + by constructor.
    + rewrite Hh. cbn [map rev]. by rewrite <-app_assoc.
  - destruct IH as (Hfs & Htr & Hout & k & Hk & Hh).
    repeat split; try done. exists (S k). split; [cbn; lia|].
    rewrite Hh. cbn [take map rev]. by rewrite <-app_assoc.
Qed.

Lemma Forall2_names paths dss store :
  Forall2 (λ p ds, read_raster w store p = inr ds) paths dss →
  map ds_name dss = paths.
Proof.
  induction 1 as [|p ds paths dss Hread _ IH]; [done|].
  cbn. by rewrite IH, (read_raster_name _ _ _ Hread).
Qed.

End Mosaicker.

(** C2.  When the scan of the folders finds no tile, [mosaic_tif_images]
    ends with an exception (the one [merge] raises on the empty list, or
    the [IndexError] of line 60), and the store is left as it was: the
    output file is neither created nor overwritten, and nothing is
    printed. *)
Theorem mosaic_without_tiles_fails w folders output_file st :
  scan_folders (fs st) folders = [] →
  ∃ e st',
    run (mosaic_tif_images w folders output_file) st = (Raise e, st')
    ∧ fs st' = fs st
    ∧ stdout st' = stdout st.
Proof.
  intros Hscan. unfold mosaic_tif_images, emit. msimpl. rewrite Hscan.
  cbn [for_each]. msimpl. cbn [map].
  destruct (rasterio_merge w []) as [e|[mosaic out_trans]].
  - msimpl. by eexists _, _.
  - cbn [first_item]. msimpl. by eexists _, _.
Qed.

Lemma mosaic_without_tiles_fails_witness :
  scan_folders (fs stray_state) ["downloaded_images"] = []
  ∧ ∃ e st',
      run (mosaic_tif_images fair_world ["downloaded_images"] "mosaic_output.tif")
          stray_state = (Raise e, st')
      ∧ fs st' !! "mosaic_output.tif" = None.
Proof.
  split; [vm_compute; reflexivity|].
  destruct (mosaic_without_tiles_fails fair_world ["downloaded_images"]
              "mosaic_output.tif" stray_state ltac:(vm_compute; reflexivity))
    as (e & st' & Hrun & Hfs & _).
  exists e, st'. split; [exact Hrun|]. rewrite Hfs. vm_compute. reflexivity.
Defined.

(** What a run of the mosaicker that returns has done. *)
Lemma mosaic_returns_inv w folders output_file st st' :
  run (mosaic_tif_images w folders output_file) st = (Ret tt, st') →
  ∃ dss first mosaic out_trans,
    Forall2 (λ p ds, read_raster w (fs st) p = inr ds) (scan_folders (fs st) folders) dss
    ∧ head dss = Some first
    ∧ rasterio_merge w dss = inr (mosaic, out_trans)
    ∧ fs st' = <[output_file := GTiff (output_meta first mosaic out_trans) mosaic]> (fs st)
    ∧ handles st' = (rev (map HRasterIn (scan_folders (fs st) folders)) ++ handles st)%list
    ∧ trace st' = (trace st ++ [EvMerge (scan_folders (fs st) folders)])%list.
Proof.
  unfold mosaic_tif_images, emit. msimpl.
  destruct (open_all_run w (scan_folders (fs st) folders) st) as (Hfs & Htr & _ & Hres).
  destruct (run (for_each (rasterio_open w) _) st) as [[dss|e] s1];
    cbn [fst snd] in *; [|discriminate].
  destruct Hres as [Hall Hh]. msimpl.
  destruct (rasterio_merge w dss) as [e|[mosaic out_trans]] eqn:Hmerge; [discriminate|].
  msimpl. destruct dss as [|first others]; [discriminate|].
  cbn [first_item]. msimpl.
  unfold write_raster, acquire, release, print. msimpl.
  destruct (rasterio_create w output_file _); [discriminate|]. msimpl.
  destruct (rasterio_write w output_file mosaic); [discriminate|]. msimpl.
  intros [= <-]. exists (first :: others), first, mosaic, out_trans.
  pose proof (Forall2_names _ _ _ _ Hall) as Hnames.
  cbn in Hnames |- *. rewrite decide_True, insert_insert_eq, Hfs, Hh, Htr, Hnames by done.
  done.
Qed.

Lemma output_meta_lookup first mosaic out_trans :
  output_meta first mosaic out_trans !! "driver" = Some (PyStr "GTiff")
  ∧ output_meta first mosaic out_trans !! "count" = Some (PyInt (shape0 mosaic))
  ∧ output_meta first mosaic out_trans !! "width" = Some (PyInt (shape2 mosaic))
  ∧ output_meta first mosaic out_trans !! "height" = Some (PyInt (shape1 mosaic))
  ∧ output_meta first mosaic out_trans !! "transform" = Some (PyAffine out_trans)
  ∧ ∀ key, key ∉ ["driver"; "count"; "width"; "height"; "transform"] →
           output_meta first mosaic out_trans !! key = ds_meta first !! key.
Proof.
  unfold output_meta, dict_update. cbn [fold_left fst snd].
  repeat split; try by simplify_map_eq.
  intros key Hkey. rewrite !not_elem_of_cons in Hkey.
  destruct Hkey as (? & ? & ? & ? & ? & _). by simplify_map_eq.
Qed.

(** C6.  When [mosaic_tif_images] returns, the scan had found at least one
    tile and the output file holds the merged array under a profile in
    which the driver is GTiff, the band count, height and width are the
    three dimensions of the merged array and the transform is the one
    [merge] returned; every other key has the value it has in the profile
    of the first tile of the scan. *)
Theorem mosaic_output_profile w folders output_file st st' :
  run (mosaic_tif_images w folders output_file) st = (Ret tt, st') →
  ∃ first_path other_paths first others mosaic out_trans out_meta,
    scan_folders (fs st) folders = first_path :: other_paths
    ∧ read_raster w (fs st) first_path = inr first
    ∧ Forall2 (λ p ds, read_raster w (fs st) p = inr ds) other_paths others
    ∧ rasterio_merge w (first :: others) = inr (mosaic, out_trans)
    ∧ fs st' !! output_file = Some (GTiff out_meta mosaic)
    ∧ out_meta !! "driver" = Some (PyStr "GTiff")
    ∧ out_meta !! "count" = Some (PyInt (shape0 mosaic))
    ∧ out_meta !! "width" = Some (PyInt (shape2 mosaic))
    ∧ out_meta !! "height" = Some (PyInt (shape1 mosaic))
    ∧ out_meta !! "transform" = Some (PyAffine out_trans)
    ∧ ∀ key, key ∉ ["driver"; "count"; "width"; "height"; "transform"] →
             out_meta !! key = ds_meta first !! key.
Proof.
  intros Hrun.
  destruct (mosaic_returns_inv _ _ _ _ _ Hrun)
    as (dss & first & mosaic & out_trans & Hall & Hhead & Hmerge & Hfs & _ & _).
  destruct dss as [|d others]; [done|]. injection Hhead as ->.
  inversion Hall as [|first_path ? other_paths ? Hfirst Hothers Hscan]; subst.
  exists first_path, other_paths, first, others, mosaic, out_trans,
    (output_meta first mosaic out_trans).
  split; [done|]. split; [done|]. split; [done|]. split; [done|].
  split; [by rewrite Hfs, lookup_insert_eq|].
  apply output_meta_lookup.
Qed.

(** Two tiles of an earlier run are merged; the profile of the output is
    that of the first tile of the scan with the five keys replaced. *)
Lemma mosaic_output_profile_witness :
  ∃ st',
    run (mosaic_tif_images fair_world ["downloaded_images"] "mosaic_output.tif")
        two_tiles_state = (Ret tt, st')
    ∧ ∃ out_meta,
        fs st' !! "mosaic_output.tif" = Some (GTiff out_meta merged_data)
        ∧ out_meta !! "driver" = Some (PyStr "GTiff")
        ∧ out_meta !! "count" = Some (PyInt 1)
        ∧ out_meta !! "width" = Some (PyInt 4)
        ∧ out_meta !! "height" = Some (PyInt 2)
        ∧ out_meta !! "transform" = Some (PyAffine merged_transform)
        ∧ out_meta !! "crs" = Some (PyStr "EPSG:4326")
        ∧ out_meta !! "dtype" = Some (PyStr "float32").
Proof.
  eexists. split; [vm_compute; reflexivity|].
  match goal with |- context [fs ?s] => set (st' := s) end.
  destruct (mosaic_output_profile fair_world ["downloaded_images"] "mosaic_output.tif"
              two_tiles_state st' ltac:(vm_compute; reflexivity))
    as (p & ps & first & others & mosaic & out_trans & out_meta
        & Hscan & Hfirst & _ & Hmerge & Hout & Hd & Hc & Hw & Hh & Ht & Hrest).
  injection Hmerge as <- <-.
  vm_compute in Hscan. injection Hscan as <- <-.
  vm_compute in Hfirst. injection Hfirst as <-.
  exists out_meta. split; [exact Hout|].
  split; [exact Hd|]. split; [exact Hc|]. split; [exact Hw|]. split; [exact Hh|].
  split; [exact Ht|].
  split; (etransitivity; [apply Hrest|vm_compute; reflexivity]);
    rewrite !not_elem_of_cons; repeat split; try discriminate; apply not_elem_of_nil.
Defined.

(** C8 fails on the code: the datasets that line 57 opens are never
    closed.  After a run that returns, both input tiles are still open
    (the output raster and the tile files, which are opened in [with]
    blocks, are not); and when [merge] raises, the run ends with the
    exception and both input tiles open. *)
Theorem mosaic_leaves_inputs_open :
  (run (mosaic_tif_images fair_world ["downloaded_images"] "mosaic_output.tif")
       two_tiles_state).1 = Ret tt
  ∧ handles (run (mosaic_tif_images fair_world ["downloaded_images"]
                    "mosaic_output.tif") two_tiles_state).2
    = [HRasterIn "downloaded_images/image_0.tif";
       HRasterIn "downloaded_images/image_1.tif"]
  ∧ (run (mosaic_tif_images merge_fails_world ["downloaded_images"] "mosaic_output.tif")
         two_tiles_state).1 = Raise (Exn Exception "CRS mismatch")
  ∧ handles (run (mosaic_tif_images merge_fails_world ["downloaded_images"]
                    "mosaic_output.tif") two_tiles_state).2
    = [HRasterIn "downloaded_images/image_0.tif";
       HRasterIn "downloaded_images/image_1.tif"].
Proof. repeat split; vm_compute; reflexivity. Qed.

(** The downloader, by contrast, holds no handle when it ends, whatever
    the collaborators answer and whether it returns or raises. *)
Lemma download_images_releases w urls folder st :
  handles (run (download_images w urls folder) st).2 = handles st.
Proof.
  unfold download_images. msimpl.
  destruct (os_makedirs w folder); [done|].
  apply download_loop_frame.
Qed.

(** ** Files that stay, and the scan *)

Lemma elem_of_glob_tif store folder path :
  path ∈ glob_tif store folder ↔ is_Some (store !! path) ∧ in_glob_tif folder path = true.
Proof.
  unfold glob_tif. rewrite list_elem_of_In, filter_In, <-list_elem_of_In.
  rewrite list_elem_of_fmap. split.
  - intros [([p f] & -> & Hin) Hglob]. apply elem_of_map_to_list in Hin.
    split; [by exists f|done].
  - intros [[f Hf] Hglob]. split; [|done].
    exists (path, f). split; [done|]. by apply elem_of_map_to_list.
Qed.

(** The scan lists the files that lie directly in the folder and whose
    name ends in [.tif] and does not start with a dot. *)
Lemma in_glob_tif_spec folder path :
  in_glob_tif folder path = true ↔
  ∃ name, path = dir_prefix folder +:+ name
          ∧ name ≠ "" ∧ has_slash name = false
          ∧ ends_with ".tif" name = true ∧ starts_with "." name = false.
Proof.
  unfold in_glob_tif, entry_of, matches_star_tif. split.
  - destruct (strip_prefix (dir_prefix folder) path) as [name|] eqn:Hstrip; [|done].
    apply strip_prefix_Some in Hstrip.
    destruct (has_slash name) eqn:Hslash; [done|].
    destruct (String.eqb name "") eqn:Hempty; [done|]. cbn [orb].
    rewrite andb_true_iff, negb_true_iff. intros [Hends Hdot].
    exists name. repeat split; try done. by apply String.eqb_neq.
  - intros (name & -> & Hne & Hslash & Hends & Hdot).
    rewrite strip_prefix_app, Hslash. apply String.eqb_neq in Hne. rewrite Hne.
    cbn [orb]. by rewrite Hends, Hdot.
Qed.

Lemma elem_of_scan_folders store folders path :
  path ∈ scan_folders store folders ↔
  ∃ folder, folder ∈ folders ∧ path ∈ glob_tif store folder.
Proof.
  unfold scan_folders. rewrite list_elem_of_In, in_concat. split.
  - intros (l & Hl & Hpath). apply in_map_iff in Hl as (folder & <- & Hfolder).
    exists folder. by rewrite !list_elem_of_In.
  - intros (folder & Hfolder & Hpath). exists (glob_tif store folder).
    rewrite <-!list_elem_of_In. split; [|done].
    apply list_elem_of_fmap. by exists folder.
Qed.

Lemma open_all_readable w paths st :
  (∀ path, path ∈ paths → ∃ ds, read_raster w (fs st) path = inr ds) →
  ∃ dss, (run (for_each (rasterio_open w) paths) st).1 = Ret dss.
Proof.
  revert st. induction paths as [|p paths IH]; intros st Hread; [by eexists|].
  cbn [for_each]. msimpl. rewrite rasterio_open_run.
  destruct (Hread p) as [ds ->]; [by left|]. cbn beta iota. msimpl.
  destruct (IH (set_handles (cons (HRasterIn p)) st)) as [dss Hdss].
  { intros path Hpath. apply Hread. by right. }
  destruct (run (for_each (rasterio_open w) paths) _) as [[dss'|e] s1];
    cbn [fst] in Hdss; [|done].
  msimpl. by eexists.
Qed.

(** What the mosaicker does to the store and the trace, whatever the
    collaborators answer: only the output file may change, no file
    disappears, and the only event is the call of [merge], on the list of
    the scan, which happens when every scanned file can be read. *)
Lemma mosaic_frame w folders output_file st :
  (∀ path, path ≠ output_file →
           fs (run (mosaic_tif_images w folders output_file) st).2 !! path
           = fs st !! path)
  ∧ (∀ path, is_Some (fs st !! path) →
             is_Some (fs (run (mosaic_tif_images w folders output_file) st).2 !! path))
  ∧ (trace (run (mosaic_tif_images w folders output_file) st).2 = trace st
     ∨ trace (run (mosaic_tif_images w folders output_file) st).2
       = (trace st ++ [EvMerge (scan_folders (fs st) folders)])%list)
  ∧ ((∀ path, path ∈ scan_folders (fs st) folders →
              ∃ ds, read_raster w (fs st) path = inr ds) →
     trace (run (mosaic_tif_images w folders output_file) st).2
     = (trace st ++ [EvMerge (scan_folders (fs st) folders)])%list).
Proof.
  unfold mosaic_tif_images, emit. msimpl.
  destruct (open_all_run w (scan_folders (fs st) folders) st) as (Hfs & Htr & _ & Hres).
  pose proof (open_all_readable w (scan_folders (fs st) folders) st) as Hreadable.
  destruct (run (for_each (rasterio_open w) _) st) as [[dss|e] s1];
    cbn [fst snd] in *.
  2:{ rewrite Hfs, Htr. repeat split; try done; [by left|].
      intros Hread. by destruct (Hreadable Hread). }
  destruct Hres as [Hall Hh]. rewrite <-(Forall2_names _ _ _ _ Hall).
  clear Hreadable Hall.
  msimpl. destruct (rasterio_merge w dss) as [e|[mosaic out_trans]]; msimpl.
  { cbn. rewrite Hfs, Htr. repeat split; try done; by right. }
  destruct dss as [|first others]; cbn [first_item]; msimpl.
  { cbn. rewrite Hfs, Htr. repeat split; try done; by right. }
  unfold write_raster, acquire, release, print. msimpl.
  destruct (rasterio_create w output_file _); msimpl.
  { cbn. rewrite Hfs, Htr. repeat split; try done; by right. }
  destruct (rasterio_write w output_file mosaic); msimpl;
    cbn; rewrite Hfs, Htr; (repeat split; try done; [| |by right]);
    intros path Hpath; rewrite ?lookup_insert_ne by done; try done;
    destruct (decide (path = output_file)) as [->|];
    rewrite ?lookup_insert_eq, ?lookup_insert_ne by done; done.
Qed.

(** C10 (amended).  For a tile folder that is a literal one (no glob
    metacharacter in its name): neither the downloader nor the mosaicker
    removes a file: the downloader changes only files named like the slots
    of its batch, the mosaicker only its output file.  The scan of the
    folder lists exactly the files that lie directly in it and whose name
    ends in [.tif] and does not start with a dot.  So a tile
    [image_<j>.tif] that was in the folder before the run is listed by the
    scan after the download, and, when every listed file can be read,
    [merge] is called on the listed files, the old tile among them. *)
Theorem leftover_tiles_are_merged w urls folder output_file st o1 s1 o2 s2 :
  literal_folder folder = true →
  run (download_images w urls folder) st = (o1, s1) →
  run (mosaic_tif_images w [folder] output_file) s1 = (o2, s2) →
  (∀ path, is_Some (fs st !! path) → is_Some (fs s1 !! path) ∧ is_Some (fs s2 !! path))
  ∧ (∀ path, (∀ i, i < length urls → path ≠ path_join folder (tile_name i)) →
             fs s1 !! path = fs st !! path)
  ∧ (∀ path, path ≠ output_file → fs s2 !! path = fs s1 !! path)
  ∧ (∀ path, path ∈ scan_folders (fs s1) [folder] ↔
             is_Some (fs s1 !! path)
             ∧ ∃ name, path = dir_prefix folder +:+ name
                       ∧ name ≠ "" ∧ has_slash name = false
                       ∧ ends_with ".tif" name = true ∧ starts_with "." name = false)
  ∧ (∀ j, is_Some (fs st !! path_join folder (tile_name j)) →
          path_join folder (tile_name j) ∈ scan_folders (fs s1) [folder])
  ∧ ((∀ path, path ∈ scan_folders (fs s1) [folder] →
              ∃ ds, read_raster w (fs s1) path = inr ds) →
     trace s2 = (trace s1 ++ [EvMerge (scan_folders (fs s1) [folder])])%list).
Proof.
  intros _ Hdl Hmosaic.
  assert (Hframe : slot_frame (λ p, ∃ k, k < length urls ∧ p = path_join folder (tile_name k))
                              st s1).
  { revert Hdl. unfold download_images. msimpl.
    destruct (os_makedirs w folder).
    - intros [= _ <-]. apply slot_frame_refl.
    - intros Hdl. pose proof (download_loop_frame w folder urls 0 st) as [Hf _].
      by rewrite Hdl in Hf. }
  destruct (mosaic_frame w [folder] output_file s1) as (Hother & Hkeeps & _ & Hmerge).
  rewrite Hmosaic in Hother, Hkeeps, Hmerge. cbn [snd] in *.
  assert (Hscan : ∀ path, path ∈ scan_folders (fs s1) [folder] ↔
             is_Some (fs s1 !! path) ∧ in_glob_tif folder path = true).
  { intros path. rewrite elem_of_scan_folders. split.
    - intros (f & Hf & Hin). apply list_elem_of_singleton in Hf as ->.
      by apply elem_of_glob_tif.
    - intros Hin. exists folder. split; [by apply list_elem_of_singleton|].
      by apply elem_of_glob_tif. }
  split; [|split; [|split; [|split; [|split]]]].
  - intros path Hpath. split; [|apply Hkeeps]; by apply (frame_keeps _ _ _ Hframe).
  - intros path Hpath. apply (frame_other _ _ _ Hframe).
    intros (k & Hk & ->). by apply (Hpath k).
  - exact Hother.
  - intros path. by rewrite Hscan, in_glob_tif_spec.
  - intros j Hj. apply Hscan. split; [by apply (frame_keeps _ _ _ Hframe)|].
    apply tile_in_glob.
  - exact Hmerge.
Qed.

(** Two tiles are left from an earlier run and the new batch has one URL:
    the tile of slot 1 is still there, and it is merged with the new tile
    of slot 0. *)
Lemma leftover_tiles_are_merged_witness :
  literal_folder "downloaded_images" = true
  ∧ ∃ o1 s1 o2 s2,
    run (download_images fair_world [Some "https://ee.example/tile/0"]
           "downloaded_images") two_tiles_state = (o1, s1)
    ∧ run (mosaic_tif_images fair_world ["downloaded_images"] "mosaic_output.tif") s1
      = (o2, s2)
    ∧ fs s1 !! "downloaded_images/image_1.tif" = Some (GTiff east_tile_meta tile_data)
    ∧ "downloaded_images/image_1.tif" ∈ scan_folders (fs s1) ["downloaded_images"]
    ∧ trace s2 = (trace s1 ++ [EvMerge (scan_folders (fs s1) ["downloaded_images"])])%list.
Proof.
  split; [reflexivity|].
  do 4 eexists. split; [vm_compute; reflexivity|]. split; [vm_compute; reflexivity|].
  match goal with |- context [trace ?s = (trace ?s' ++ _)%list] =>
    set (s2 := s); set (s1 := s') end.
  destruct (leftover_tiles_are_merged fair_world [Some "https://ee.example/tile/0"]
              "downloaded_images" "mosaic_output.tif" two_tiles_state
              (Ret tt) s1 (Ret tt) s2 eq_refl
              ltac:(vm_compute; reflexivity) ltac:(vm_compute; reflexivity))
    as (_ & Hsame & _ & _ & Hleft & Hmerge).
  split.
  { refine (eq_trans (Hsame "downloaded_images/image_1.tif" _) _);
      [|vm_compute; reflexivity].
    intros i Hi. cbn in Hi. assert (i = 0) as -> by lia. vm_compute. discriminate. }
  split.
  { apply (Hleft 1). vm_compute. by eexists. }
  apply Hmerge. intros path Hpath.
  destruct (fs s1 !! path) as [[body|meta data]|] eqn:Hfile.
  - unfold read_raster. rewrite Hfile. by eexists.
  - unfold read_raster. rewrite Hfile. by eexists.
  - exfalso. apply elem_of_scan_folders in Hpath as (f & _ & Hin).
    apply elem_of_glob_tif in Hin as [[? Hsome] _]. congruence.
Defined.

(** C10 as stated fails on the code.  [.partial.tif] lies directly in the
    scanned folder and its name ends in [.tif], but the scan does not
    list it, because names that start with a dot are not matched by
    [*.tif].  And a tile left from an earlier run is not merged when
    another listed file cannot be read: [image_1.tif] is listed next to
    the unreadable [image_0.tif], the mosaicker raises and [merge] is
    never called. *)
Lemma hidden_tile_counterexample :
  (is_Some (fs hidden_tile_state !! "downloaded_images/.partial.tif")
   ∧ entry_of "downloaded_images" "downloaded_images/.partial.tif" = Some ".partial.tif"
   ∧ ends_with ".tif" ".partial.tif" = true
   ∧ scan_folders (fs hidden_tile_state) ["downloaded_images"] = [])
  ∧ (In "downloaded_images/image_1.tif"
        (scan_folders (fs mixed_tiles_state) ["downloaded_images"])
     ∧ (run (mosaic_tif_images corrupt_world ["downloaded_images"] "mosaic_output.tif")
            mixed_tiles_state).1
       = Raise (Exn RasterioIOError
                  "downloaded_images/image_0.tif: not recognized as a supported file format")
     ∧ trace (run (mosaic_tif_images corrupt_world ["downloaded_images"]
                     "mosaic_output.tif") mixed_tiles_state).2 = []).
Proof.
  split.
  - repeat split; try (vm_compute; reflexivity). vm_compute. by eexists.
  - split; [vm_compute; tauto|]. split; vm_compute; reflexivity.
Qed.

(** ** The pipeline *)

Lemma export_requests_app t1 t2 :
  export_requests (t1 ++ t2) = (export_requests t1 ++ export_requests t2)%list.
Proof. unfold export_requests. apply List.filter_app. Qed.

Lemma export_requests_map img regions :
  export_requests (map (export_request img) regions) = map (export_request img) regions.
Proof.
  induction regions as [|r rs IH]; [done|].
  unfold export_requests in *. cbn. by rewrite IH.
Qed.

Lemma export_requests_local evs :
  Forall (λ e, is_local_event e = true) evs → export_requests evs = [].
Proof.
  induction 1 as [|e evs He _ IH]; [done|].
  unfold export_requests in *. destruct e; try discriminate; cbn; exact IH.
Qed.

Lemma count_local (p : event → bool) evs :
  (∀ e, is_local_event e = true → p e = false) →
  Forall (λ e, is_local_event e = true) evs → List.filter p evs = [].
Proof.
  intros Hp. induction 1 as [|e evs He _ IH]; [done|].
  cbn. by rewrite (Hp e He).
Qed.

Section PipelineFacts.

Variable split_bounds : ee_geometry → Z → list ee_geometry.
Variable w : world.

(** The requests of line 89: one per sub-region, in order, up to the
    first one the catalog rejects. *)
Lemma resolve_urls_trace img regions k0 st :
  ∃ k : nat, (k ≤ length regions)%nat
       ∧ trace (run (resolve_urls w img k0 regions) st).2
         = (trace st ++ map (export_request img) (take k regions))%list
       ∧ (∀ urls, (run (resolve_urls w img k0 regions) st).1 = Ret urls →
                  k = length regions)
       ∧ ((∀ j img', ∃ url, ee_getDownloadURL w j img' export_params = inr url) →
          k = length regions).
Proof.
  revert k0 st. induction regions as [|region rest IH]; intros k0 st.
  { exists 0. cbn. by rewrite app_nil_r. }
  cbn [resolve_urls]. unfold get_download_url, emit. msimpl.
  destruct (ee_getDownloadURL w k0 _ export_params) as [e|url] eqn:Hurl; msimpl.
  { exists 1. split; [cbn; lia|]. split; [done|]. split; [done|].
    intros Hall. destruct (Hall k0 (Clip img (ByGeometry region))) as [url Hu].
    congruence. }
  destruct (IH (S k0) (set_trace (λ t, (t ++ [EvGetDownloadURL
               (Clip img (ByGeometry region)) export_params])%list) st))
    as (k & Hk & Htrace & Hret & Hall).
  exists (S k).
  destruct (run (resolve_urls w img (S k0) rest) _) as [[urls|e] s1];
    cbn [fst snd] in *; msimpl; cbn [fst snd length take map].
  - rewrite Htrace. cbn [trace set_trace]. rewrite <-app_assoc.
    repeat split; try done; [lia| |].
    + intros ? _. f_equal. by apply (Hret urls).
    + intros H. f_equal. by apply Hall.
  - rewrite Htrace. cbn [trace set_trace]. rewrite <-app_assoc.
    repeat split; try done; [lia|].
    intros H. f_equal. by apply Hall.
Qed.

(** The events of one invocation of [process]: the authentication, the
    initialization when the authentication returned, the export requests
    for a prefix of the sub-regions, and then only downloads and the
    merge. *)
Lemma process_trace aoi num_splits start_date end_date output_folder st :
  ∃ (k : nat) tail,
    trace (run (process split_bounds w aoi num_splits start_date end_date
                  output_folder) st).2
    = (trace st
       ++ EvAuthenticate
          :: match ee_Authenticate w with
             | Some _ => []
             | None => [EvInitialize "ee-bordamit"]
             end
       ++ map (export_request (ndvi_clipped_of aoi start_date end_date))
              (take k (split_bounds (FcGeometry aoi) num_splits))
       ++ tail)%list
    ∧ (k ≤ length (split_bounds (FcGeometry aoi) num_splits))%nat
    ∧ Forall (λ e, is_local_event e = true) tail
    ∧ (catalog_answers w → k = length (split_bounds (FcGeometry aoi) num_splits)).
Proof.
  unfold process, initialize_ee, emit. msimpl.
  destruct (ee_Authenticate w) as [e|] eqn:Hauth; msimpl.
  { exists 0, []. cbn. repeat split; try done; [lia|]. intros [? _]. congruence. }
  destruct (ee_Initialize w "ee-bordamit") as [e|] eqn:Hinit; msimpl.
  { exists 0, []. cbn. rewrite <-app_assoc. repeat split; try done; [lia|].
    intros (_ & ? & _). congruence. }
  fold (ndvi_clipped_of aoi start_date end_date).
  set (regions := split_bounds (FcGeometry aoi) num_splits).
  set (s0 := set_trace _ (set_trace _ st)).
  destruct (resolve_urls_trace (ndvi_clipped_of aoi start_date end_date) regions 0 s0)
    as (k & Hk & Htrace & Hret & Hall).
  exists k.
  assert (Hs0 : trace s0 = (trace st ++ [EvAuthenticate; EvInitialize "ee-bordamit"])%list).
  { subst s0. cbn. by rewrite <-app_assoc. }
  destruct (run (resolve_urls w _ 0 regions) s0) as [[urls|e] s1]; cbn [fst snd] in *.
  2:{ exists []. rewrite Htrace, Hs0, app_nil_r, <-app_assoc. cbn.
      repeat split; try done. intros (_ & _ & H). by apply Hall. }
  pose proof (download_loop_frame w output_folder urls 0 s1) as [Hdl _].
  unfold download_images. msimpl.
  destruct (os_makedirs w output_folder); msimpl.
  { exists []. rewrite Htrace, Hs0, app_nil_r, <-app_assoc. cbn.
    repeat split; try done. intros (_ & _ & H). by apply Hall. }
  destruct Hdl as [_ (gets & Hgets & Hlocal) _ _].
  assert (Hlocal' : Forall (λ e, is_local_event e = true) gets).
  { eapply Forall_impl; [exact Hlocal|]. by intros []. }
  destruct (run (download_loop w output_folder 0 urls) s1) as [[[]|e] s2];
    cbn [fst snd] in *.
  2:{ exists gets. rewrite Hgets, Htrace, Hs0, <-!app_assoc. cbn.
      repeat split; try done. intros (_ & _ & H). by apply Hall. }
  msimpl.
  destruct (mosaic_frame w [output_folder] "mosaic_output.tif" s2)
    as (_ & _ & Hmerge & _).
  destruct (run (mosaic_tif_images w [output_folder] "mosaic_output.tif") s2)
    as [[[]|e] s3]; cbn [fst snd] in *; msimpl; cbn [fst snd].
  all: destruct Hmerge as [Hm|Hm];
    [exists gets|exists (gets ++ [EvMerge (scan_folders (fs s2) [output_folder])])%list];
    rewrite Hm, Hgets, Htrace, Hs0, <-!app_assoc; cbn;
    (split; [done|]; split; [done|]; split;
     [first [done|apply Forall_app; split; [done|by repeat constructor]]
     |intros (_ & _ & H); by apply Hall]).
Qed.

End PipelineFacts.

Lemma export_params_lookup :
  export_params !! "scale" = Some (PyInt 10)
  ∧ export_params !! "crs" = Some (PyStr "EPSG:4326")
  ∧ export_params !! "filePerBand" = Some (PyBool false)
  ∧ export_params !! "format" = Some (PyStr "GeoTIFF")
  ∧ ∀ key, key ∉ ["scale"; "crs"; "filePerBand"; "format"] → export_params !! key = None.
Proof.
  unfold export_params, dict_update. cbn [fold_left fst snd].
  repeat split; try by simplify_map_eq.
  intros key Hkey. rewrite !not_elem_of_cons in Hkey.
  destruct Hkey as (? & ? & ? & ? & _). by simplify_map_eq.
Qed.

Lemma filter_requests_nil (p : event → bool) img regions :
  (∀ i params, p (EvGetDownloadURL i params) = false) →
  List.filter p (map (export_request img) regions) = [].
Proof.
  intros Hp. induction regions as [|r rs IH]; [done|].
  cbn [map List.filter]. unfold export_request at 1. by rewrite Hp.
Qed.

(** C4 (amended).  In every invocation of [process] the export requests
    are sent for the sub-regions in order, one each, up to the first one
    the catalog rejects, and each carries the four fixed parameters
    (scale 10, CRS EPSG:4326, filePerBand false, format GeoTIFF) and no
    other.  When the catalog accepts the session and answers every
    request, there is exactly one request per sub-region; so a splitter
    that returns N sub-regions gives exactly N requests. *)
Theorem process_export_requests
    (split_bounds : ee_geometry → Z → list ee_geometry) w aoi num_splits
    start_date end_date output_folder st :
  ∃ k : nat,
    (k ≤ length (split_bounds (FcGeometry aoi) num_splits))%nat
    ∧ export_requests
        (trace (run (process split_bounds w aoi num_splits start_date end_date
                       output_folder) st).2)
      = (export_requests (trace st)
         ++ map (λ region, EvGetDownloadURL
                             (Clip (ndvi_clipped_of aoi start_date end_date)
                                   (ByGeometry region))
                             export_params)
                (take k (split_bounds (FcGeometry aoi) num_splits)))%list
    ∧ (catalog_answers w → k = length (split_bounds (FcGeometry aoi) num_splits))
    ∧ (catalog_answers w →
       length (split_bounds (FcGeometry aoi) num_splits) = Z.to_nat num_splits →
       length (export_requests
                 (trace (run (process split_bounds w aoi num_splits start_date end_date
                                output_folder) st).2))
       = (length (export_requests (trace st)) + Z.to_nat num_splits)%nat)
    ∧ export_params !! "scale" = Some (PyInt 10)
    ∧ export_params !! "crs" = Some (PyStr "EPSG:4326")
    ∧ export_params !! "filePerBand" = Some (PyBool false)
    ∧ export_params !! "format" = Some (PyStr "GeoTIFF")
    ∧ ∀ key, key ∉ ["scale"; "crs"; "filePerBand"; "format"] →
             export_params !! key = None.
Proof.
  destruct (process_trace split_bounds w aoi num_splits start_date end_date
              output_folder st) as (k & tail & Htrace & Hk & Htail & Hall).
  exists k. split; [done|].
  assert (Hreq : export_requests
        (trace (run (process split_bounds w aoi num_splits start_date end_date
                       output_folder) st).2)
      = (export_requests (trace st)
         ++ map (export_request (ndvi_clipped_of aoi start_date end_date))
                (take k (split_bounds (FcGeometry aoi) num_splits)))%list).
  { rewrite Htrace, export_requests_app. f_equal.
    change (EvAuthenticate :: ?l) with ([EvAuthenticate] ++ l)%list.
    rewrite !export_requests_app, export_requests_map, (export_requests_local tail Htail).
    rewrite app_nil_r. by destruct (ee_Authenticate w). }
  split; [exact Hreq|]. split; [exact Hall|]. split; [|apply export_params_lookup].
  intros Hw Hlen. rewrite Hreq, length_app, length_map, (Hall Hw).
  rewrite firstn_all. by rewrite Hlen.
Qed.

(** Split count 4 in a world where the catalog answers: four requests. *)
Lemma process_export_requests_witness :
  catalog_answers fair_world
  ∧ length (test_splitter (FcGeometry test_aoi) 4) = Z.to_nat 4
  ∧ length (export_requests
              (trace (run (process test_splitter fair_world test_aoi 4 "2023-01-01"
                             "2023-01-31" "downloaded_images") empty_state).2))
    = 4.
Proof.
  assert (Hw : catalog_answers fair_world).
  { split; [done|]. split; [done|]. intros k img. by eexists. }
  split; [exact Hw|]. split; [reflexivity|].
  destruct (process_export_requests test_splitter fair_world test_aoi 4 "2023-01-01"
              "2023-01-31" "downloaded_images" empty_state)
    as (k & _ & _ & _ & Hcount & _).
  exact (Hcount Hw eq_refl).
Defined.

(** C4 as stated fails on the code: with split count 4, when the catalog
    rejects the second request the exception leaves [process] and only two
    requests have been sent. *)
Lemma process_export_requests_counterexample :
  length (test_splitter (FcGeometry test_aoi) 4) = 4
  ∧ (run (process test_splitter quota_world test_aoi 4 "2023-01-01" "2023-01-31"
            "downloaded_images") empty_state).1
    = Raise (Exn EEException "Total request size exceeds the limit")
  ∧ length (export_requests
              (trace (run (process test_splitter quota_world test_aoi 4 "2023-01-01"
                             "2023-01-31" "downloaded_images") empty_state).2))
    = 2.
Proof. repeat split; vm_compute; reflexivity. Qed.

(** C7 (amended).  Every invocation of [process] starts with the
    authentication, performs it exactly once, and, when it returns,
    performs the initialization exactly once: nothing remembers that an
    earlier invocation has done so. *)
Theorem process_initializes_each_time
    (split_bounds : ee_geometry → Z → list ee_geometry) w aoi num_splits
    start_date end_date output_folder st :
  (∃ rest,
     trace (run (process split_bounds w aoi num_splits start_date end_date
                   output_folder) st).2
     = (trace st ++ EvAuthenticate :: rest)%list)
  ∧ authentications
      (trace (run (process split_bounds w aoi num_splits start_date end_date
                     output_folder) st).2)
    = (authentications (trace st) + 1)%nat
  ∧ (ee_Authenticate w = None →
     initializations
       (trace (run (process split_bounds w aoi num_splits start_date end_date
                      output_folder) st).2)
     = (initializations (trace st) + 1)%nat).
Proof.
  destruct (process_trace split_bounds w aoi num_splits start_date end_date
              output_folder st) as (k & tail & Htrace & _ & Htail & _).
  rewrite Htrace. split; [by eexists|].
  unfold authentications, initializations.
  change (EvAuthenticate :: ?l) with ([EvAuthenticate] ++ l)%list.
  rewrite !List.filter_app, !length_app.
  rewrite (filter_requests_nil is_authenticate _ _ (λ _ _, eq_refl)).
  rewrite (filter_requests_nil is_initialize _ _ (λ _ _, eq_refl)).
  rewrite (count_local is_authenticate tail ltac:(by intros []) Htail).
  rewrite (count_local is_initialize tail ltac:(by intros []) Htail).
  split.
  - destruct (ee_Authenticate w); cbn; lia.
  - intros ->. cbn. lia.
Qed.

Lemma process_initializes_each_time_witness :
  ee_Authenticate fair_world = None
  ∧ initializations
      (trace (run (process test_splitter fair_world test_aoi 4 "2023-01-01"
                     "2023-01-31" "downloaded_images") empty_state).2)
    = 1.
Proof.
  split; [reflexivity|].
  exact (proj2 (proj2 (process_initializes_each_time test_splitter fair_world test_aoi 4
                         "2023-01-01" "2023-01-31" "downloaded_images" empty_state))
               eq_refl).
Defined.

(** C7 as stated fails on the code: a second invocation in the same
    process authenticates and initializes again. *)
Lemma process_initializes_twice_counterexample :
  initializations
    (trace (run (process test_splitter fair_world test_aoi 4 "2023-01-01" "2023-01-31"
                   "downloaded_images") empty_state).2) = 1
  ∧ initializations
      (trace (run (process test_splitter fair_world test_aoi 4 "2023-02-01" "2023-02-28"
                     "downloaded_images")
                (run (process test_splitter fair_world test_aoi 4 "2023-01-01"
                        "2023-01-31" "downloaded_images") empty_state).2).2) = 2
  ∧ authentications
      (trace (run (process test_splitter fair_world test_aoi 4 "2023-02-01" "2023-02-28"
                     "downloaded_images")
                (run (process test_splitter fair_world test_aoi 4 "2023-01-01"
                        "2023-01-31" "downloaded_images") empty_state).2).2) = 2.
Proof. repeat split; vm_compute; reflexivity. Qed.

(** ** The index *)

Lemma normalized_difference_value (a b : Q) :
  (0 <= a)%Q → (0 <= b)%Q → ¬ (a + b == 0)%Q →
  normalized_difference (Some a) (Some b) = Some ((a - b) / (a + b))%Q.
Proof.
  intros Ha Hb Hsum. unfold normalized_difference.
  apply Qle_bool_iff in Ha, Hb. rewrite Ha, Hb. cbn [negb orb].
  destruct (Qeq_bool (a + b) 0) eqn:E; [|done].
  by apply Qeq_bool_iff in E.
Qed.

(** C5.  For an image that has the bands B8 and B4, [compute_ndvi] denotes
    an image with the single band NDVI whose value at a pixel is
    (NIR - RED) / (NIR + RED), NIR being the value of B8 and RED that of
    B4, wherever both are defined and non-negative and their sum is not
    zero.  With NIR = 200 and RED = 100 the value equals 1/3.  (Exact
    rationals stand for the floating-point numbers of the catalog.) *)
Theorem compute_ndvi_formula composite inside image r (nir red : band) :
  pixels composite inside image = Some r →
  band_of "B8" r = Some nir →
  band_of "B4" r = Some red →
  ∃ ndvi : band,
    pixels composite inside (compute_ndvi image) = Some [("NDVI", ndvi)]
    ∧ (∀ p a b,
         nir p = Some a → red p = Some b →
         (0 <= a)%Q → (0 <= b)%Q → ¬ (a + b == 0)%Q →
         ∃ v, ndvi p = Some v ∧ (v == (a - b) / (a + b))%Q)
    ∧ (∀ p,
         nir p = Some 200%Q → red p = Some 100%Q →
         ∃ v, ndvi p = Some v ∧ (v == 1 # 3)%Q).
Proof.
  intros Himg Hnir Hred. unfold compute_ndvi.
  cbn [pixels]. rewrite Himg, Hnir, Hred. cbn [length Nat.eqb zip map snd zip_with].
  eexists. split; [reflexivity|]. split.
  - intros p a b Ha Hb Ha0 Hb0 Hsum. rewrite Ha, Hb.
    rewrite normalized_difference_value by done. by eexists.
  - intros p Ha Hb. rewrite Ha, Hb. eexists. split; [reflexivity|]. reflexivity.
Qed.

Lemma compute_ndvi_formula_witness :
  ∃ ndvi : band,
    pixels flat_composite (λ _ _, true)
      (compute_ndvi (load_sentinel_image_collection test_aoi "2023-01-01" "2023-01-31"))
    = Some [("NDVI", ndvi)]
    ∧ ∀ p, ∃ v, ndvi p = Some v ∧ (v == 1 # 3)%Q.
Proof.
  destruct (compute_ndvi_formula flat_composite (λ _ _, true)
              (load_sentinel_image_collection test_aoi "2023-01-01" "2023-01-31")
              _ (λ _, Some 200%Q) (λ _, Some 100%Q) eq_refl eq_refl eq_refl)
    as (ndvi & Hpix & _ & Hflat).
  exists ndvi. split; [exact Hpix|]. intros p. by apply Hflat.
Defined.

(** ** The region splitter *)

Section Splitter.

Variable b : bbox.
Variable n : Z.
Hypothesis n_pos : (1 ≤ n)%Z.

Let step : Q := ((xmax b - xmin b) / inject_Z n)%Q.

Lemma inject_n_pos : (0 < inject_Z n)%Q.
Proof. change 0%Q with (inject_Z 0). rewrite <-Zlt_Qlt. lia. Qed.

Lemma inject_n_nonzero : ¬ (inject_Z n == 0)%Q.
Proof.
  intros Hz. pose proof inject_n_pos as H. rewrite Hz in H.
  by apply Qlt_irrefl in H.
Qed.

Lemma cut_step i : (cut b n i == xmin b + inject_Z i * step)%Q.
Proof. unfold cut, step. field. apply inject_n_nonzero. Qed.

Lemma cut_succ i : (cut b n (i + 1) == cut b n i + step)%Q.
Proof. rewrite !cut_step, inject_Z_plus. ring. Qed.

Lemma cut_0 : (cut b n 0 == xmin b)%Q.
Proof. rewrite cut_step. ring. Qed.

Lemma cut_n : (cut b n n == xmax b)%Q.
Proof. unfold cut. field. apply inject_n_nonzero. Qed.

Lemma split_bounds_length : length (split_bounds b n) = Z.to_nat n.
Proof. unfold split_bounds. by rewrite length_map, length_seqZ. Qed.

Lemma split_bounds_lookup (i : nat) c :
  split_bounds b n !! i = Some c → c = cell b n (Z.of_nat i) ∧ (Z.of_nat i < n)%Z.
Proof.
  unfold split_bounds. rewrite list_lookup_fmap.
  destruct (seqZ 0 n !! i) as [z|] eqn:Hz; [|done].
  apply lookup_seqZ in Hz as [-> Hi]. intros [= <-]. split; [f_equal; lia|lia].
Qed.

(** Every abscissa between the first cut and the [k]-th lies between two
    consecutive cuts. *)
Lemma between_cuts (k : nat) x :
  (1 ≤ k)%nat → (cut b n 0 <= x)%Q → (x <= cut b n (Z.of_nat k))%Q →
  ∃ i : nat, (i < k)%nat
             ∧ (cut b n (Z.of_nat i) <= x)%Q ∧ (x <= cut b n (Z.of_nat i + 1))%Q.
Proof.
  induction k as [|k IH]; [lia|]. intros _ Hlo Hhi.
  destruct k as [|k].
  { exists 0%nat. repeat split; [lia|done|done]. }
  destruct (Qlt_le_dec (cut b n (Z.of_nat (S k))) x) as [Hgt|Hle].
  - exists (S k). split; [lia|]. split; [by apply Qlt_le_weak|].
    by replace (Z.of_nat (S k) + 1)%Z with (Z.of_nat (S (S k))) by lia.
  - destruct IH as (i & Hi & Hlo' & Hhi'); [lia|done|done|].
    exists i. split; [lia|done].
Qed.

Lemma split_bounds_covers x y :
  contains b x y → ∃ c, c ∈ split_bounds b n ∧ contains c x y.
Proof.
  intros (Hx1 & Hx2 & Hy1 & Hy2).
  destruct (between_cuts (Z.to_nat n) x) as (i & Hi & Hlo & Hhi).
  - lia.
  - by rewrite cut_0.
  - rewrite Z2Nat.id by lia. by rewrite cut_n.
  - exists (cell b n (Z.of_nat i)). split.
    + unfold split_bounds. apply list_elem_of_fmap. exists (Z.of_nat i).
      split; [done|]. apply elem_of_seqZ. lia.
    + by repeat split.
Qed.

Lemma split_bounds_distinct (i j : nat) ci cj :
  (xmin b < xmax b)%Q → i ≠ j →
  split_bounds b n !! i = Some ci → split_bounds b n !! j = Some cj →
  ¬ same_box ci cj.
Proof.
  intros Hwide Hij Hi Hj (Hx & _).
  apply split_bounds_lookup in Hi as [-> _], Hj as [-> _].
  cbn [xmin cell] in Hx. rewrite !cut_step in Hx.
  assert (Hstep : ¬ (step == 0)%Q).
  { unfold step. intros H0.
    assert (xmax b - xmin b == 0)%Q as Hw; [|clear -Hwide Hw; lra].
    rewrite <-(Qmult_div_r (xmax b - xmin b) (inject_Z n) inject_n_nonzero).
    rewrite H0. ring. }
  apply Qplus_inj_l, Qmult_inj_r in Hx; [|done].
  apply (proj1 (inject_Z_injective _ _)) in Hx. lia.
Qed.

Lemma step_pos : (xmin b < xmax b)%Q → (0 < step)%Q.
Proof.
  intros Hwide. unfold step. apply Qlt_shift_div_l; [apply inject_n_pos|].
  clear -Hwide. lra.
Qed.

Lemma cut_mono i j : (0 <= step)%Q → (i ≤ j)%Z → (cut b n i <= cut b n j)%Q.
Proof.
  intros Hstep Hij. rewrite !cut_step.
  assert (Hd : (0 <= inject_Z (j - i) * step)%Q).
  { apply Qmult_le_0_compat; [|done].
    change 0%Q with (inject_Z 0). rewrite <-Zle_Qle. lia. }
  unfold Z.sub in Hd. rewrite inject_Z_plus, inject_Z_opp in Hd.
  revert Hd. generalize (inject_Z i) (inject_Z j) step (xmin b). clear.
  intros qi qj s x Hd.
  assert ((qj + - qi) * s == qj * s - qi * s)%Q as Heq by ring.
  rewrite Heq in Hd. lra.
Qed.

(** A cell is a strip of the box: it spans the whole height and a part of
    the width that is not empty. *)
Lemma cell_inside i :
  (xmin b < xmax b)%Q → (0 ≤ i < n)%Z →
  (xmin b <= xmin (cell b n i) ∧ xmin (cell b n i) < xmax (cell b n i)
   ∧ xmax (cell b n i) <= xmax b
   ∧ ymin (cell b n i) == ymin b ∧ ymax (cell b n i) == ymax b
   ∧ xmax (cell b n i) - xmin (cell b n i) == (xmax b - xmin b) / inject_Z n)%Q.
Proof.
  intros Hwide Hi. pose proof (step_pos Hwide) as Hstep.
  assert (H0 : (0 <= step)%Q) by (by apply Qlt_le_weak).
  cbn [xmin ymin xmax ymax cell].
  split; [rewrite <-cut_0; apply cut_mono; [done|lia]|].
  split; [rewrite cut_succ; clear -Hstep; lra|].
  split; [rewrite <-cut_n; apply cut_mono; [done|lia]|].
  split; [reflexivity|]. split; [reflexivity|].
  rewrite cut_succ. fold step. ring.
Qed.

Lemma split_bounds_elem c :
  c ∈ split_bounds b n → ∃ i, c = cell b n i ∧ (0 ≤ i < n)%Z.
Proof.
  unfold split_bounds. intros Hc.
  apply list_elem_of_fmap in Hc as (i & -> & Hi).
  apply elem_of_seqZ in Hi. exists i. split; [done|lia].
Qed.

End Splitter.

(** C3.  For a split count N ≥ 1 and a bounding box of positive width,
    [split_bounds] returns exactly N boxes, the same number for every box;
    no two of them have the same coordinates; every point of the bounding
    box lies in one of them; and for N = 1 the only box returned has the
    coordinates of the bounding box.  The boxes are sub-regions: each one
    lies inside the bounding box, spans its whole height and one N-th of
    its width, and a box that comes later in the list starts where the
    earlier ones end or further east, so two boxes share at most a
    border. *)
Theorem split_bounds_spec (b : bbox) (n : Z) :
  (1 ≤ n)%Z → (xmin b < xmax b)%Q →
  length (split_bounds b n) = Z.to_nat n
  ∧ (∀ b', length (split_bounds b' n) = length (split_bounds b n))
  ∧ (∀ (i j : nat) ci cj,
       i ≠ j → split_bounds b n !! i = Some ci → split_bounds b n !! j = Some cj →
       ¬ same_box ci cj)
  ∧ (∀ x y, contains b x y → ∃ c, c ∈ split_bounds b n ∧ contains c x y)
  ∧ (n = 1%Z → ∃ c, split_bounds b n = [c] ∧ same_box c b)
  ∧ (∀ c, c ∈ split_bounds b n →
          (xmin b <= xmin c ∧ xmin c < xmax c ∧ xmax c <= xmax b
           ∧ ymin c == ymin b ∧ ymax c == ymax b
           ∧ xmax c - xmin c == (xmax b - xmin b) / inject_Z n)%Q)
  ∧ (∀ c x y, c ∈ split_bounds b n → contains c x y → contains b x y)
  ∧ (∀ (i j : nat) ci cj,
       (i < j)%nat →
       split_bounds b n !! i = Some ci → split_bounds b n !! j = Some cj →
       (xmax ci <= xmin cj)%Q).
Proof.
  intros Hn Hwide. split; [by apply split_bounds_length|].
  split; [intros b'; by rewrite !split_bounds_length|].
  split; [intros i j ci cj Hij; by apply split_bounds_distinct|].
  split; [intros x y; by apply split_bounds_covers|].
  split.
  { intros ->. exists (cell b 1 0). split; [reflexivity|].
    unfold same_box. cbn [xmin ymin xmax ymax cell].
    rewrite cut_0 by lia. change (0 + 1)%Z with 1%Z. rewrite cut_n by lia.
    repeat split; reflexivity. }
  assert (Hcell : ∀ c, c ∈ split_bounds b n →
          (xmin b <= xmin c ∧ xmin c < xmax c ∧ xmax c <= xmax b
           ∧ ymin c == ymin b ∧ ymax c == ymax b
           ∧ xmax c - xmin c == (xmax b - xmin b) / inject_Z n)%Q).
  { intros c Hc. apply split_bounds_elem in Hc as (i & -> & Hi).
    by apply cell_inside. }
  split; [exact Hcell|]. split.
  - intros c x y Hc (Hx1 & Hx2 & Hy1 & Hy2).
    destruct (Hcell c Hc) as (H1 & _ & H3 & H4 & H5 & _).
    unfold contains.
    split; [eapply Qle_trans; [exact H1|exact Hx1]|].
    split; [eapply Qle_trans; [exact Hx2|exact H3]|].
    split; [by rewrite <-H4|by rewrite <-H5].
  - intros i j ci cj Hij Hi Hj.
    apply split_bounds_lookup in Hi as [-> _].
    apply split_bounds_lookup in Hj as [-> _].
    cbn [xmin xmax cell]. apply cut_mono; [done| |lia].
    apply Qlt_le_weak. by apply step_pos.
Qed.

(** The unit square in four: four strips; the point (1/2, 1/2) lies in one
    of them. *)
Lemma split_bounds_spec_witness :
  (1 ≤ 4)%Z ∧ (xmin unit_box < xmax unit_box)%Q
  ∧ length (split_bounds unit_box 4) = 4%nat
  ∧ (∃ c, c ∈ split_bounds unit_box 4 ∧ contains c (1 # 2) (1 # 2))
  ∧ (∀ c x y, c ∈ split_bounds unit_box 4 → contains c x y → contains unit_box x y).
Proof.
  split; [lia|]. split; [reflexivity|].
  destruct (split_bounds_spec unit_box 4 ltac:(lia) eq_refl)
    as (Hlen & _ & _ & Hcover & _ & _ & Hinside & _).
  split; [exact Hlen|]. split; [|exact Hinside]. apply Hcover.
  repeat split; discriminate.
Defined.

(** ** More on the downloader *)

Section DownloaderLog.

Variable w : world.
Variable folder : string.
Hypothesis writable : files_writable w.

Lemma write_binary_file_stdout path data st :
  stdout (run (write_binary_file w path data) st).2 = stdout st.
Proof.
  unfold write_binary_file, acquire, release. msimpl.
  destruct (os_open_wb w path); msimpl; [done|].
  by destruct (os_write w path data); msimpl.
Qed.

Lemma download_one_log i url st :
  trace (run (download_one w folder i url) st).2
  = (trace st ++ map EvHttpGet (live_urls [url]))%list
  ∧ length (stdout (run (download_one w folder i url) st).2)
    = (length (stdout st) + length (live_urls [url]))%nat.
Proof.
  unfold download_one, live_urls. cbn [omap list_omap].
  destruct url as [u|]; [|cbn; by rewrite app_nil_r, Nat.add_0_r].
  destruct (truthy (Some u)); [|cbn; by rewrite app_nil_r, Nat.add_0_r].
  unfold http_get, emit, print. msimpl.
  destruct (requests_get w i u) as [[cls msg]|r]; msimpl.
  { cbn. rewrite length_app. cbn. done. }
  destruct ((400 <=? status_code r)%Z && (status_code r <? 600)%Z) eqn:E.
  { edestruct (raise_for_status_rejected u r) as (e & -> & ->); [done|].
    msimpl. cbn. rewrite length_app. done. }
  rewrite raise_for_status_accepted by done. msimpl.
  match goal with |- context [run (write_binary_file w ?p ?d) ?s] =>
    pose proof (write_binary_file_stdout p d s) as Hout;
    destruct (write_binary_file_ok w p d s writable) as (s1 & Hrun & _ & _ & Htr) end.
  rewrite Hrun in Hout |- *. msimpl. cbn in Hout |- *.
  rewrite Htr, Hout, length_app. done.
Qed.

Lemma download_loop_log urls i st :
  trace (run (download_loop w folder i urls) st).2
  = (trace st ++ map EvHttpGet (live_urls urls))%list
  ∧ length (stdout (run (download_loop w folder i urls) st).2)
    = (length (stdout st) + length (live_urls urls))%nat.
Proof.
  revert i st. induction urls as [|url rest IH]; intros i st.
  { cbn. by rewrite app_nil_r, Nat.add_0_r. }
  cbn [download_loop]. msimpl.
  destruct (download_one_log i url st) as [Htr Hout].
  destruct (download_one_ok w folder i url st writable) as (s1 & Hrun & _).
  rewrite Hrun in Htr, Hout |- *. cbn [fst snd] in *.
  destruct (IH (S i) s1) as [Htr' Hout'].
  rewrite Htr', Hout', Htr, Hout.
  replace (live_urls (url :: rest)) with (live_urls [url] ++ live_urls rest)%list.
  - rewrite map_app, length_app, <-app_assoc. split; [done|lia].
  - unfold live_urls. cbn [omap list_omap]. by destruct (if truthy url then url else None).
Qed.

End DownloaderLog.

Lemma store_after_size w folder urls i (store : gmap string file) :
  (∀ k, (k < length urls)%nat → store !! path_join folder (tile_name (i + k)) = None) →
  size (store_after w folder i urls store) = (size store + stored_count w i urls)%nat.
Proof.
  revert i store. induction urls as [|url rest IH]; intros i store Hfree.
  { cbn. lia. }
  cbn [store_after stored_count].
  assert (Hi : store !! path_join folder (tile_name i) = None).
  { specialize (Hfree 0%nat). rewrite Nat.add_0_r in Hfree. apply Hfree. cbn. lia. }
  destruct (tile_body w i url) as [body|].
  - rewrite IH.
    + rewrite map_size_insert_None by done. lia.
    + intros k Hk. rewrite lookup_insert_ne.
      * specialize (Hfree (S k)). rewrite Nat.add_succ_r in Hfree.
        apply Hfree. cbn. lia.
      * intros Heq. apply tile_path_inj in Heq. lia.
  - rewrite IH; [lia|]. intros k Hk.
    specialize (Hfree (S k)). rewrite Nat.add_succ_r in Hfree.
    apply Hfree. cbn. lia.
Qed.

(** One request per truthy URL.  When the directory and the files can be
    written, [download_images] requests the truthy URLs of the batch once
    each, in the order of the batch, and requests nothing for a URL that is
    [None] or empty; and it prints one line for each of these requests (the
    download or its failure), so no attempted slot goes unreported. *)
Theorem download_images_requests_once w urls folder st :
  os_makedirs w folder = None →
  files_writable w →
  trace (run (download_images w urls folder) st).2
  = (trace st ++ map EvHttpGet (live_urls urls))%list
  ∧ length (stdout (run (download_images w urls folder) st).2)
    = (length (stdout st) + length (live_urls urls))%nat.
Proof.
  intros Hdir Hfiles. unfold download_images. msimpl. rewrite Hdir.
  by apply download_loop_log.
Qed.

Lemma download_images_requests_once_witness :
  os_makedirs flaky_world "downloaded_images" = None
  ∧ files_writable flaky_world
  ∧ trace (run (download_images flaky_world
                  [Some "https://ee.example/tile/0"; None; Some "";
                   Some "https://ee.example/tile/3"]
                  "downloaded_images") empty_state).2
    = [EvHttpGet "https://ee.example/tile/0"; EvHttpGet "https://ee.example/tile/3"]
  ∧ length (stdout (run (download_images flaky_world
                           [Some "https://ee.example/tile/0"; None; Some "";
                            Some "https://ee.example/tile/3"]
                           "downloaded_images") empty_state).2)
    = 2%nat.
Proof.
  assert (Hw : files_writable flaky_world) by (by split).
  split; [reflexivity|]. split; [exact Hw|].
  exact (download_images_requests_once flaky_world
           [Some "https://ee.example/tile/0"; None; Some "";
            Some "https://ee.example/tile/3"]
           "downloaded_images" empty_state eq_refl Hw).
Defined.

(** As many new files as stored downloads.  When the directory and the
    files can be written and none of the tile names of the batch exists in
    the store, the store grows by exactly the number of slots whose
    download is stored: distinct slots never write the same file. *)
Theorem download_images_file_count w urls folder st :
  os_makedirs w folder = None →
  files_writable w →
  (∀ i, (i < length urls)%nat → fs st !! path_join folder (tile_name i) = None) →
  size (fs (run (download_images w urls folder) st).2)
  = (size (fs st) + stored_count w 0 urls)%nat.
Proof.
  intros Hdir Hfiles Hfree. unfold download_images. msimpl. rewrite Hdir.
  destruct (download_loop_ok w folder urls 0 st Hfiles) as (st' & -> & Hfs & _).
  cbn [snd]. rewrite Hfs. by apply store_after_size.
Qed.

Lemma download_images_file_count_witness :
  os_makedirs flaky_world "downloaded_images" = None
  ∧ files_writable flaky_world
  ∧ stored_count flaky_world 0 five_urls = 3%nat
  ∧ size (fs (run (download_images flaky_world five_urls "downloaded_images")
                stray_state).2)
    = 4%nat.
Proof.
  assert (Hw : files_writable flaky_world) by (by split).
  split; [reflexivity|]. split; [exact Hw|]. split; [reflexivity|].
  refine (eq_trans (download_images_file_count flaky_world five_urls "downloaded_images"
                      stray_state eq_refl Hw _) _).
  - intros i _. vm_compute. reflexivity.
  - vm_compute. reflexivity.
Defined.

(** What the downloader stores, the mosaicker finds.  When the directory
    and the files can be written and the folder is a literal one (no glob
    metacharacter in its name), the tile of every slot whose download is
    stored is listed by the scan of the same folder after the batch. *)
Theorem stored_tiles_are_scanned w urls folder st i u r :
  literal_folder folder = true →
  os_makedirs w folder = None →
  files_writable w →
  urls !! i = Some (Some u) → u ≠ "" →
  requests_get w i u = inr r →
  ¬ (400 ≤ status_code r < 600)%Z →
  path_join folder (tile_name i)
  ∈ scan_folders (fs (run (download_images w urls folder) st).2) [folder].
Proof.
  intros _ Hdir Hfiles Hi Hu Hget Hcode. unfold download_images. msimpl. rewrite Hdir.
  destruct (download_loop_ok w folder urls 0 st Hfiles) as (st' & -> & Hfs & _).
  cbn [snd]. apply elem_of_scan_folders. exists folder.
  split; [by apply list_elem_of_singleton|].
  apply elem_of_glob_tif. split; [|apply tile_in_glob].
  rewrite Hfs, (store_after_slot w folder urls 0 _ i _ Hi). cbn [Nat.add].
  unfold tile_body. rewrite truthy_Some, Hget by done.
  destruct ((400 <=? status_code r)%Z && (status_code r <? 600)%Z) eqn:E; [|by eexists].
  by apply rejected_iff in E.
Qed.

Lemma stored_tiles_are_scanned_witness :
  literal_folder "downloaded_images" = true
  ∧ "downloaded_images/image_2.tif"
    ∈ scan_folders (fs (run (download_images flaky_world five_urls "downloaded_images")
                          empty_state).2) ["downloaded_images"].
Proof.
  split; [reflexivity|].
  exact (stored_tiles_are_scanned flaky_world five_urls "downloaded_images" empty_state
           2 "https://ee.example/tile/2" (Response 200 "OK" tiff_magic)
           eq_refl eq_refl (conj (λ _, eq_refl) (λ _ _, eq_refl)) eq_refl
           ltac:(discriminate) eq_refl ltac:(cbn; lia)).
Defined.

(** A failed write leaves a partial tile behind.  When the tile file of a
    slot can be created but writing the body raises [OSError], the error
    leaves [download_images] and the file of that slot, whatever it held
    before, holds only the part of the body that had reached it (a prefix
    of the body, possibly empty); the file is closed, and, for a literal
    folder, the scan lists it as a tile. *)
Theorem failed_write_leaves_partial_tile w folder pre u r post st st1 msg :
  run (download_images w pre folder) st = (Ret tt, st1) →
  u ≠ "" →
  requests_get w (length pre) u = inr r →
  ¬ (400 ≤ status_code r < 600)%Z →
  os_open_wb w (path_join folder (tile_name (length pre))) = None →
  os_write w (path_join folder (tile_name (length pre))) (content r) = Some msg →
  literal_folder folder = true →
  ∃ st' written,
    run (download_images w (pre ++ Some u :: post) folder) st
    = (Raise (Exn OSError msg), st')
    ∧ written
      = os_written w (path_join folder (tile_name (length pre))) (content r)
    ∧ fs st' = <[path_join folder (tile_name (length pre))
                 := Raw (take written (content r))]> (fs st1)
    ∧ handles st' = handles st1
    ∧ path_join folder (tile_name (length pre)) ∈ scan_folders (fs st') [folder].
Proof.
  intros Hpre Hu Hget Hcode Hopen Hwrite _.
  revert Hpre. unfold download_images. msimpl.
  destruct (os_makedirs w folder); [discriminate|]. intros Hpre.
  rewrite download_loop_app, Hpre. cbn [download_loop Nat.add]. msimpl.
  unfold download_one. rewrite truthy_Some by done.
  unfold http_get, emit, print, write_binary_file, acquire, release. msimpl.
  rewrite Hget. msimpl.
  rewrite raise_for_status_accepted
    by (apply not_true_is_false; by rewrite rejected_iff).
  msimpl. rewrite Hopen. msimpl. rewrite Hwrite. msimpl.
  eexists _, _. split; [reflexivity|]. split; [reflexivity|].
  cbn [fs handles set_fs set_handles set_trace set_stdout close_handle].
  rewrite decide_True, insert_insert_eq by done.
  split; [done|]. split; [done|].
  apply elem_of_scan_folders. exists folder.
  split; [by apply list_elem_of_singleton|].
  apply elem_of_glob_tif. split; [|apply tile_in_glob].
  rewrite lookup_insert_eq. by eexists.
Qed.

(** The disk fills up after two of the four bytes of the body: the good
    tile of an earlier run is replaced by these two bytes. *)
Lemma failed_write_leaves_partial_tile_witness :
  literal_folder "downloaded_images" = true
  ∧ ∃ st',
      run (download_images full_disk_world ([] ++ [Some "https://ee.example/tile/0"])
             "downloaded_images") two_tiles_state
      = (Raise (Exn OSError "[Errno 28] No space left on device"), st')
      ∧ fs st' !! "downloaded_images/image_0.tif" = Some (Raw [Byte.x49; Byte.x49])
      ∧ "downloaded_images/image_0.tif" ∈ scan_folders (fs st') ["downloaded_images"].
Proof.
  split; [reflexivity|].
  destruct (failed_write_leaves_partial_tile full_disk_world "downloaded_images" []
              "https://ee.example/tile/0" (Response 200 "OK" tiff_magic) []
              two_tiles_state two_tiles_state "[Errno 28] No space left on device"
              eq_refl ltac:(discriminate) eq_refl ltac:(cbn; lia) eq_refl eq_refl eq_refl)
    as (st' & written & Hrun & -> & Hfs & _ & Hscan).
  exists st'. split; [exact Hrun|]. split; [|exact Hscan].
  rewrite Hfs. apply lookup_insert_eq.
Defined.

Lemma store_after_insert w folder urls i (store : gmap string file) path f :
  (∀ k, (k < length urls)%nat → path ≠ path_join folder (tile_name (i + k))) →
  store_after w folder i urls (<[path := f]> store)
  = <[path := f]> (store_after w folder i urls store).
Proof.
  revert i store. induction urls as [|url rest IH]; intros i store Hne; [done|].
  cbn [store_after].
  assert (Hrest : ∀ k, (k < length rest)%nat →
                       path ≠ path_join folder (tile_name (S i + k))).
  { intros k Hk. specialize (Hne (S k)). rewrite Nat.add_succ_r in Hne.
    apply Hne. cbn. lia. }
  destruct (tile_body w i url) as [body|]; [|by apply IH].
  rewrite <-IH by done. f_equal. apply insert_insert_ne.
  specialize (Hne 0%nat). rewrite Nat.add_0_r in Hne.
  intros Heq. apply Hne; [cbn; lia|done].
Qed.

Lemma store_after_twice w folder urls i (store : gmap string file) :
  store_after w folder i urls (store_after w folder i urls store)
  = store_after w folder i urls store.
Proof.
  revert i store. induction urls as [|url rest IH]; intros i store; [done|].
  cbn [store_after]. destruct (tile_body w i url) as [body|]; [|apply IH].
  assert (Hne : ∀ k, (k < length rest)%nat →
                     path_join folder (tile_name i)
                     ≠ path_join folder (tile_name (S i + k))).
  { intros k _ Heq. apply tile_path_inj in Heq. lia. }
  rewrite !store_after_insert by done.
  by rewrite insert_insert_eq, IH.
Qed.

(** Running the batch again changes nothing.  When the directory and the
    files can be written and the transport gives the same answers, a
    second run of [download_images] on the same URLs leaves the store
    exactly as the first run left it: tiles are overwritten in place, never
    duplicated under new names. *)
Theorem download_images_rerun w urls folder st :
  os_makedirs w folder = None →
  files_writable w →
  fs (run (download_images w urls folder)
          (run (download_images w urls folder) st).2).2
  = fs (run (download_images w urls folder) st).2.
Proof.
  intros Hdir Hfiles. unfold download_images. msimpl. rewrite Hdir.
  destruct (download_loop_ok w folder urls 0 st Hfiles) as (s1 & -> & Hfs1 & _).
  cbn [snd].
  destruct (download_loop_ok w folder urls 0 s1 Hfiles) as (s2 & -> & Hfs2 & _).
  cbn [snd]. by rewrite Hfs2, Hfs1, store_after_twice.
Qed.

Lemma download_images_rerun_witness :
  os_makedirs flaky_world "downloaded_images" = None
  ∧ files_writable flaky_world
  ∧ size (fs (run (download_images flaky_world five_urls "downloaded_images")
                (run (download_images flaky_world five_urls "downloaded_images")
                   empty_state).2).2)
    = 3%nat.
Proof.
  assert (Hw : files_writable flaky_world) by (by split).
  split; [reflexivity|]. split; [exact Hw|].
  rewrite (download_images_rerun flaky_world five_urls "downloaded_images" empty_state
             eq_refl Hw).
  vm_compute. reflexivity.
Defined.

(** ** More on the mosaicker *)

Lemma read_raster_error_class w store path e :
  read_raster w store path = inl e → exn_cls e = RasterioIOError.
Proof.
  unfold read_raster.
  destruct (store !! path) as [[body|meta data]|]; [|done|by intros [= <-]].
  destruct (gdal_decode w path body) as [msg|[meta data]]; [by intros [= <-]|done].
Qed.

Lemma open_all_unreadable w paths st :
  (∃ path e, path ∈ paths ∧ read_raster w (fs st) path = inl e) →
  ∃ e, (run (for_each (rasterio_open w) paths) st).1 = Raise e
       ∧ exn_cls e = RasterioIOError.
Proof.
  revert st. induction paths as [|p paths IH]; intros st (path & e & Hin & Hread).
  { by apply elem_of_nil in Hin. }
  cbn [for_each]. msimpl. rewrite rasterio_open_run.
  destruct (read_raster w (fs st) p) as [e'|ds] eqn:Hp.
  { exists e'. split; [done|]. by eapply read_raster_error_class. }
  cbn beta iota. msimpl.
  apply elem_of_cons in Hin as [->|Hin]; [congruence|].
  destruct (IH (set_handles (cons (HRasterIn p)) st)) as (e' & Hrun & Hcls).
  { by exists path, e. }
  destruct (run (for_each (rasterio_open w) paths) _) as [[dss|e''] s1];
    cbn [fst] in Hrun; [done|].
  injection Hrun as ->. by exists e'.
Qed.

(** One unreadable tile stops the mosaic.  When a file listed by the scan
    cannot be read as a raster, [mosaic_tif_images] raises the error of
    [rasterio.open]; [merge] is not called, the store is as before (the
    output file is not touched) and nothing is printed. *)
Theorem unreadable_tile_stops_mosaic w folders output_file st path e :
  path ∈ scan_folders (fs st) folders →
  read_raster w (fs st) path = inl e →
  ∃ e' st',
    run (mosaic_tif_images w folders output_file) st = (Raise e', st')
    ∧ exn_cls e' = RasterioIOError
    ∧ fs st' = fs st
    ∧ trace st' = trace st
    ∧ stdout st' = stdout st.
Proof.
  intros Hin Hread. unfold mosaic_tif_images, emit. msimpl.
  destruct (open_all_run w (scan_folders (fs st) folders) st) as (Hfs & Htr & Hout & _).
  destruct (open_all_unreadable w (scan_folders (fs st) folders) st) as (e' & Hrun & Hcls).
  { by exists path, e. }
  destruct (run (for_each (rasterio_open w) _) st) as [[dss|e''] s1];
    cbn [fst snd] in *; [done|].
  injection Hrun as ->. by exists e', s1.
Qed.

Lemma unreadable_tile_stops_mosaic_witness :
  ∃ e' st',
    run (mosaic_tif_images corrupt_world ["downloaded_images"] "mosaic_output.tif")
        mixed_tiles_state = (Raise e', st')
    ∧ exn_cls e' = RasterioIOError
    ∧ fs st' !! "mosaic_output.tif" = None.
Proof.
  destruct (unreadable_tile_stops_mosaic corrupt_world ["downloaded_images"]
              "mosaic_output.tif" mixed_tiles_state "downloaded_images/image_0.tif"
              (Exn RasterioIOError
                 "downloaded_images/image_0.tif: not recognized as a supported file format"))
    as (e' & st' & Hrun & Hcls & Hfs & _).
  - apply elem_of_scan_folders. exists "downloaded_images".
    split; [by apply list_elem_of_singleton|].
    apply elem_of_glob_tif. split; [vm_compute; by eexists|vm_compute; reflexivity].
  - vm_compute. reflexivity.
  - exists e', st'. split; [exact Hrun|]. split; [exact Hcls|].
    rewrite Hfs. vm_compute. reflexivity.
Defined.

(** What a failed mosaic can leave.  When [mosaic_tif_images] raises,
    nothing has been printed, and the store is either as before or differs
    only in the output file, which then holds the new profile and no
    pixels: a failure after the output was opened destroys the earlier
    mosaic. *)
Theorem mosaic_failure_effects w folders output_file st e st' :
  run (mosaic_tif_images w folders output_file) st = (Raise e, st') →
  stdout st' = stdout st
  ∧ (fs st' = fs st
     ∨ ∃ first mosaic out_trans,
         fs st' = <[output_file := GTiff (output_meta first mosaic out_trans) blank]> (fs st)
         ∧ exn_cls e = RasterioIOError).
Proof.
  unfold mosaic_tif_images, emit. msimpl.
  destruct (open_all_run w (scan_folders (fs st) folders) st) as (Hfs & _ & Hout & _).
  destruct (run (for_each (rasterio_open w) _) st) as [[dss|e0] s1]; cbn [fst snd] in *.
  2:{ intros [= <- <-]. split; [done|by left]. }
  msimpl. destruct (rasterio_merge w dss) as [e0|[mosaic out_trans]]; msimpl.
  { intros [= <- <-]. cbn. split; [done|by left]. }
  destruct dss as [|first others]; cbn [first_item]; msimpl.
  { intros [= <- <-]. cbn. split; [done|by left]. }
  unfold write_raster, acquire, release, print. msimpl.
  destruct (rasterio_create w output_file _); msimpl.
  { intros [= <- <-]. cbn. split; [done|by left]. }
  destruct (rasterio_write w output_file mosaic); msimpl; [|discriminate].
  intros [= <- <-]. cbn. split; [done|]. right.
  exists first, mosaic, out_trans. by rewrite Hfs.
Qed.

Lemma mosaic_failure_effects_witness :
  ∃ e st',
    run (mosaic_tif_images write_fails_world ["downloaded_images"] "mosaic_output.tif")
        two_tiles_state = (Raise e, st')
    ∧ stdout st' = []
    ∧ ∃ meta, fs st' !! "mosaic_output.tif" = Some (GTiff meta blank).
Proof.
  do 2 eexists. split; [vm_compute; reflexivity|].
  match goal with |- stdout ?s = _ ∧ _ => set (st' := s) end.
  destruct (mosaic_failure_effects write_fails_world ["downloaded_images"]
              "mosaic_output.tif" two_tiles_state _ st' ltac:(vm_compute; reflexivity))
    as [Hout _].
  split; [exact Hout|]. eexists. vm_compute. reflexivity.
Defined.

(** The mosaic becomes a tile.  When the output file lies directly in one
    of the scanned folders under a name that [*.tif] matches, a run of
    [mosaic_tif_images] that returns leaves a file that the next scan of
    the same folders lists among the tiles. *)
Theorem mosaic_output_is_rescanned w folders output_file st st' folder :
  run (mosaic_tif_images w folders output_file) st = (Ret tt, st') →
  folder ∈ folders →
  in_glob_tif folder output_file = true →
  output_file ∈ scan_folders (fs st') folders.
Proof.
  intros Hrun Hfolder Hmatch.
  destruct (mosaic_returns_inv _ _ _ _ _ Hrun)
    as (dss & first & mosaic & out_trans & _ & _ & _ & Hfs & _).
  apply elem_of_scan_folders. exists folder. split; [done|].
  apply elem_of_glob_tif. split; [|done].
  rewrite Hfs, lookup_insert_eq. by eexists.
Qed.

Lemma mosaic_output_is_rescanned_witness :
  ∃ st',
    run (mosaic_tif_images fair_world ["downloaded_images"]
           "downloaded_images/mosaic_output.tif") two_tiles_state = (Ret tt, st')
    ∧ "downloaded_images/mosaic_output.tif"
      ∈ scan_folders (fs st') ["downloaded_images"].
Proof.
  eexists. split; [vm_compute; reflexivity|].
  eapply (mosaic_output_is_rescanned fair_world ["downloaded_images"]
            "downloaded_images/mosaic_output.tif" two_tiles_state _ "downloaded_images").
  - vm_compute. reflexivity.
  - by apply list_elem_of_singleton.
  - vm_compute. reflexivity.
Defined.

(** Every input stays open.  After a run of [mosaic_tif_images] that
    returns, one dataset per scanned tile has been added to the open
    handles and none has been released, so at least one more handle is
    open than before. *)
Theorem mosaic_keeps_inputs_open w folders output_file st st' :
  run (mosaic_tif_images w folders output_file) st = (Ret tt, st') →
  handles st' = (rev (map HRasterIn (scan_folders (fs st) folders)) ++ handles st)%list
  ∧ (length (handles st) < length (handles st'))%nat.
Proof.
  intros Hrun.
  destruct (mosaic_returns_inv _ _ _ _ _ Hrun)
    as (dss & first & mosaic & out_trans & Hall & Hhead & _ & _ & Hh & _).
  split; [done|].
  rewrite Hh, length_app, length_rev, length_map.
  apply Forall2_length in Hall. rewrite Hall.
  destruct dss; [done|]. cbn. lia.
Qed.

Lemma mosaic_keeps_inputs_open_witness :
  ∃ st',
    run (mosaic_tif_images fair_world ["downloaded_images"] "mosaic_output.tif")
        two_tiles_state = (Ret tt, st')
    ∧ length (handles st') = 2%nat.
Proof.
  eexists. split; [vm_compute; reflexivity|].
  match goal with |- length (handles ?s) = _ => set (st' := s) end.
  destruct (mosaic_keeps_inputs_open fair_world ["downloaded_images"] "mosaic_output.tif"
              two_tiles_state st' ltac:(vm_compute; reflexivity)) as [Hh _].
  rewrite Hh. vm_compute. reflexivity.
Defined.

(** Outside the scanned folders, the output never disturbs the tiles.
    When the output file is not a file that the scan of any of the folders
    would list, a run of [mosaic_tif_images], whether it returns or raises,
    leaves the same set of tiles to be found by the next scan. *)
Theorem mosaic_preserves_tiles w folders output_file st :
  (∀ folder, folder ∈ folders → in_glob_tif folder output_file = false) →
  ∀ path,
    path ∈ scan_folders (fs (run (mosaic_tif_images w folders output_file) st).2) folders
    ↔ path ∈ scan_folders (fs st) folders.
Proof.
  intros Hout path.
  destruct (mosaic_frame w folders output_file st) as (Hother & _ & _ & _).
  rewrite !elem_of_scan_folders.
  split; intros (folder & Hfolder & Hin); exists folder; (split; [done|]);
    apply elem_of_glob_tif in Hin as [Hsome Hglob]; apply elem_of_glob_tif;
    (split; [|done]);
    (destruct (decide (path = output_file)) as [->|Hne];
     [rewrite (Hout folder Hfolder) in Hglob; discriminate|]).
  - by rewrite <-(Hother path Hne).
  - by rewrite (Hother path Hne).
Qed.

Lemma mosaic_preserves_tiles_witness :
  "downloaded_images/image_1.tif"
  ∈ scan_folders
      (fs (run (mosaic_tif_images fair_world ["downloaded_images"] "mosaic_output.tif")
             two_tiles_state).2) ["downloaded_images"]
  ∧ ¬ "mosaic_output.tif"
      ∈ scan_folders
          (fs (run (mosaic_tif_images fair_world ["downloaded_images"]
                      "mosaic_output.tif") two_tiles_state).2) ["downloaded_images"].
Proof.
  assert (Hout : ∀ folder, folder ∈ ["downloaded_images"] →
                           in_glob_tif folder "mosaic_output.tif" = false).
  { intros folder Hf. apply list_elem_of_singleton in Hf as ->. reflexivity. }
  pose proof (mosaic_preserves_tiles fair_world ["downloaded_images"] "mosaic_output.tif"
                two_tiles_state Hout) as Hsame.
  split.
  - apply Hsame. apply elem_of_scan_folders. exists "downloaded_images".
    split; [by apply list_elem_of_singleton|].
    apply elem_of_glob_tif. split; [vm_compute; by eexists|reflexivity].
  - intros Hin. apply Hsame in Hin.
    apply elem_of_scan_folders in Hin as (folder & Hf & Hin).
    apply elem_of_glob_tif in Hin as [_ Hglob].
    rewrite (Hout folder Hf) in Hglob. discriminate.
Defined.

(** ** More on the pipeline *)

Section PipelineSteps.

Variable split_bounds : ee_geometry → Z → list ee_geometry.
Variable w : world.

(** Resolving the URLs touches neither the store, nor the handles, nor the
    output. *)
Lemma resolve_urls_frame img regions k0 st :
  fs (run (resolve_urls w img k0 regions) st).2 = fs st
  ∧ handles (run (resolve_urls w img k0 regions) st).2 = handles st
  ∧ stdout (run (resolve_urls w img k0 regions) st).2 = stdout st.
Proof.
  revert k0 st. induction regions as [|region rest IH]; intros k0 st; [done|].
  cbn [resolve_urls]. unfold get_download_url, emit. msimpl.
  destruct (ee_getDownloadURL w k0 _ export_params) as [e|url]; msimpl; [done|].
  match goal with |- context [run (resolve_urls w img (S k0) rest) ?s] =>
    destruct (IH (S k0) s) as (Hfs & Hh & Hout);
    destruct (run (resolve_urls w img (S k0) rest) s) as [[urls|e] s1] end;
    msimpl; cbn [fst snd] in *; by rewrite Hfs, Hh, Hout.
Qed.

(** The URLs come back in the order of the sub-regions.  When line 89
    ends with a list, the list is as long as the list of sub-regions and
    its [i]-th element is what the catalog answered to the request for the
    [i]-th sub-region; so the tile of slot [i] is the export of sub-region
    [i]. *)
Theorem resolve_urls_aligned img regions k0 st urls st' :
  run (resolve_urls w img k0 regions) st = (Ret urls, st') →
  length urls = length regions
  ∧ ∀ (i : nat) region,
      regions !! i = Some region →
      ∃ url, urls !! i = Some url
             ∧ ee_getDownloadURL w (k0 + i) (Clip img (ByGeometry region)) export_params
               = inr url.
Proof.
  revert k0 st urls st'. induction regions as [|region rest IH]; intros k0 st urls st'.
  { cbn. intros [= <- <-]. by split. }
  cbn [resolve_urls]. unfold get_download_url, emit. msimpl.
  destruct (ee_getDownloadURL w k0 _ export_params) as [e|url] eqn:Hurl; msimpl;
    [discriminate|].
  match goal with |- context [run (resolve_urls w img (S k0) rest) ?s] =>
    specialize (IH (S k0) s);
    destruct (run (resolve_urls w img (S k0) rest) s) as [[urls'|e] s1] end;
    msimpl; [|discriminate].
  intros [= <- <-]. destruct (IH urls' s1 eq_refl) as [Hlen Hall].
  split; [cbn; by rewrite Hlen|].
  intros [|i] r Hr.
  - injection Hr as <-. exists url. by rewrite Nat.add_0_r.
  - destruct (Hall i r Hr) as (url' & Hi & Hans). exists url'.
    split; [done|]. by rewrite Nat.add_succ_r.
Qed.

End PipelineSteps.

Lemma resolve_urls_aligned_witness :
  ∃ urls st',
    run (resolve_urls fair_world (ndvi_clipped_of test_aoi "2023-01-01" "2023-01-31") 0
           (test_splitter (FcGeometry test_aoi) 3)) empty_state = (Ret urls, st')
    ∧ length urls = 3%nat
    ∧ urls !! 2%nat = Some (Some "https://ee.example/tile/2").
Proof.
  do 2 eexists. split; [vm_compute; reflexivity|].
  match goal with |- length ?l = _ ∧ _ => set (urls := l) end.
  destruct (resolve_urls_aligned fair_world
              (ndvi_clipped_of test_aoi "2023-01-01" "2023-01-31")
              (test_splitter (FcGeometry test_aoi) 3) 0 empty_state urls _
              ltac:(vm_compute; reflexivity)) as [Hlen Hall].
  split; [exact Hlen|].
  destruct (Hall 2%nat (Rectangle (cell unit_box 3 2)) eq_refl) as (url & Hurl & Hans).
  rewrite Hurl. f_equal. cbn in Hans. by injection Hans as <-.
Defined.

Section PipelineRuns.

Variable split_bounds : ee_geometry → Z → list ee_geometry.
Variable w : world.

(** The stages of an invocation that returns. *)
Lemma process_returns_stages aoi num_splits start_date end_date output_folder st s st' :
  run (process split_bounds w aoi num_splits start_date end_date output_folder) st
  = (Ret s, st') →
  s = "Mosaic created successfully!"
  ∧ ∃ urls s1 s2,
      handles s1 = handles st
      ∧ run (download_images w urls output_folder) s1 = (Ret tt, s2)
      ∧ run (mosaic_tif_images w [output_folder] "mosaic_output.tif") s2 = (Ret tt, st').
Proof.
  unfold process, initialize_ee, emit. msimpl.
  destruct (ee_Authenticate w); msimpl; [discriminate|].
  destruct (ee_Initialize w "ee-bordamit"); msimpl; [discriminate|].
  match goal with |- context [run (resolve_urls w ?img 0 ?regions) ?s0] =>
    destruct (resolve_urls_frame w img regions 0 s0) as (_ & Hh & _);
    destruct (run (resolve_urls w img 0 regions) s0) as [[urls|e] s1] end;
    msimpl; [|discriminate].
  destruct (run (download_images w urls output_folder) s1) as [[[]|e] s2] eqn:Hdl;
    msimpl; [|discriminate].
  destruct (run (mosaic_tif_images w [output_folder] "mosaic_output.tif") s2)
    as [[[]|e] s3] eqn:Hm; msimpl; [|discriminate].
  intros [= <- <-]. split; [done|]. by exists urls, s1, s2.
Qed.

Lemma mosaic_returns_stdout folders output_file st st' :
  run (mosaic_tif_images w folders output_file) st = (Ret tt, st') →
  stdout st' = (stdout st ++ ["Mosaic created successfully at " +:+ output_file])%list.
Proof.
  unfold mosaic_tif_images, emit. msimpl.
  destruct (open_all_run w (scan_folders (fs st) folders) st) as (_ & _ & Hout & _).
  destruct (run (for_each (rasterio_open w) _) st) as [[dss|e] s1];
    cbn [fst snd] in *; [|discriminate].
  msimpl. destruct (rasterio_merge w dss) as [e|[mosaic out_trans]]; [discriminate|].
  msimpl. destruct dss as [|first others]; [discriminate|].
  cbn [first_item]. msimpl. unfold write_raster, acquire, release, print. msimpl.
  destruct (rasterio_create w output_file _); [discriminate|]. msimpl.
  destruct (rasterio_write w output_file mosaic); [discriminate|]. msimpl.
  intros [= <-]. cbn. by rewrite Hout.
Qed.

(** Success means a mosaic.  When [process] returns, it returns the fixed
    message, the file [mosaic_output.tif] holds a raster written by this
    invocation, the last line printed announces it, and at least one more
    dataset is open than before the invocation. *)
Theorem process_returns_with_mosaic aoi num_splits start_date end_date output_folder
    st s st' :
  run (process split_bounds w aoi num_splits start_date end_date output_folder) st
  = (Ret s, st') →
  s = "Mosaic created successfully!"
  ∧ (∃ first mosaic out_trans,
       fs st' !! "mosaic_output.tif"
       = Some (GTiff (output_meta first mosaic out_trans) mosaic))
  ∧ last (stdout st') = Some "Mosaic created successfully at mosaic_output.tif"
  ∧ (length (handles st) < length (handles st'))%nat.
Proof.
  intros Hrun.
  destruct (process_returns_stages _ _ _ _ _ _ _ _ Hrun)
    as (Hs & urls & s1 & s2 & Hh1 & Hdl & Hmosaic).
  split; [done|].
  destruct (mosaic_returns_inv _ _ _ _ _ Hmosaic)
    as (dss & first & mosaic & out_trans & Hall & Hhead & _ & Hfs & Hh & _).
  split; [|split].
  - exists first, mosaic, out_trans. by rewrite Hfs, lookup_insert_eq.
  - rewrite (mosaic_returns_stdout _ _ _ _ Hmosaic). apply last_snoc.
  - assert (handles s2 = handles s1) as Hh2.
    { revert Hdl. unfold download_images. msimpl.
      destruct (os_makedirs w output_folder); [discriminate|]. intros Hdl.
      pose proof (download_loop_frame w output_folder urls 0 s1) as [Hf _].
      rewrite Hdl in Hf. apply Hf. }
    rewrite Hh, Hh2, Hh1, length_app, length_rev, length_map.
    apply Forall2_length in Hall. rewrite Hall.
    destruct dss; [done|]. cbn. lia.
Qed.

End PipelineRuns.

Lemma process_returns_with_mosaic_witness :
  ∃ s st',
    run (process test_splitter fair_world test_aoi 4 "2023-01-01" "2023-01-31"
           "downloaded_images") empty_state = (Ret s, st')
    ∧ s = "Mosaic created successfully!"
    ∧ last (stdout st') = Some "Mosaic created successfully at mosaic_output.tif".
Proof.
  do 2 eexists. split; [vm_compute; reflexivity|].
  match goal with |- _ ∧ last (stdout ?x) = _ => set (st' := x) end.
  destruct (process_returns_with_mosaic test_splitter fair_world test_aoi 4 "2023-01-01"
              "2023-01-31" "downloaded_images" empty_state
              "Mosaic created successfully!" st' ltac:(vm_compute; reflexivity))
    as (Hs & _ & Hlast & _).
  by split.
Defined.

Section PipelineFailures.

Variable split_bounds : ee_geometry → Z → list ee_geometry.
Variable w : world.

Lemma resolve_urls_returns img regions k0 st :
  (∀ k img', ∃ url, ee_getDownloadURL w k img' export_params = inr url) →
  ∃ urls, (run (resolve_urls w img k0 regions) st).1 = Ret urls.
Proof.
  intros Hall. revert k0 st. induction regions as [|region rest IH]; intros k0 st.
  { by eexists. }
  cbn [resolve_urls]. unfold get_download_url, emit. msimpl.
  destruct (Hall k0 (Clip img (ByGeometry region))) as [url ->]. msimpl.
  match goal with |- context [run (resolve_urls w img (S k0) rest) ?s] =>
    destruct (IH (S k0) s) as [urls Hurls];
    destruct (run (resolve_urls w img (S k0) rest) s) as [[urls'|e] s1] end;
    cbn [fst] in Hurls; [|done].
  msimpl. by eexists.
Qed.

Lemma download_one_no_download folder i url st :
  no_download w →
  (run (download_one w folder i url) st).1 = Ret tt
  ∧ fs (run (download_one w folder i url) st).2 = fs st.
Proof.
  intros Hno. unfold download_one.
  destruct url as [u|]; [|done]. destruct (truthy (Some u)); [|done].
  unfold http_get, emit, print. msimpl.
  specialize (Hno i u).
  destruct (requests_get w i u) as [[cls msg]|r]; msimpl; [done|].
  apply rejected_iff in Hno.
  edestruct (raise_for_status_rejected u r) as (e & -> & ->); [done|].
  by msimpl.
Qed.

Lemma download_loop_no_download folder urls i st :
  no_download w →
  (run (download_loop w folder i urls) st).1 = Ret tt
  ∧ fs (run (download_loop w folder i urls) st).2 = fs st.
Proof.
  intros Hno. revert i st. induction urls as [|url rest IH]; intros i st; [done|].
  cbn [download_loop]. msimpl.
  destruct (download_one_no_download folder i url st Hno) as [Hret Hfs].
  destruct (run (download_one w folder i url) st) as [[[]|e] s1];
    cbn [fst snd] in *; [|done].
  destruct (IH (S i) s1) as [Hret' Hfs']. by rewrite Hfs', Hfs.
Qed.

Lemma mosaic_raises_on_empty_scan folders output_file st :
  scan_folders (fs st) folders = [] →
  ∃ e, (run (mosaic_tif_images w folders output_file) st).1 = Raise e
       ∧ (rasterio_merge w [] = inl e ∨ e = Exn IndexError "list index out of range")
       ∧ fs (run (mosaic_tif_images w folders output_file) st).2 = fs st.
Proof.
  intros Hscan. unfold mosaic_tif_images, emit. msimpl. rewrite Hscan.
  cbn [for_each]. msimpl. cbn [map].
  destruct (rasterio_merge w []) as [e|[mosaic out_trans]].
  - msimpl. exists e. split; [done|]. split; [by left|done].
  - cbn [first_item]. msimpl. eexists. split; [done|]. split; [by right|done].
Qed.

(** Swallowed download errors surface at the mosaic.  When the catalog
    answers, the folder can be created and holds no tile, and every
    download ends in a transport error or a rejected status, the per-URL
    errors are absorbed and [process] still ends with an exception, raised
    by the mosaicker; the store is as it was before the invocation, so no
    output file is created. *)
Theorem process_fails_without_tiles aoi num_splits start_date end_date output_folder st :
  catalog_answers w →
  os_makedirs w output_folder = None →
  no_download w →
  scan_folders (fs st) [output_folder] = [] →
  ∃ e st',
    run (process split_bounds w aoi num_splits start_date end_date output_folder) st
    = (Raise e, st')
    ∧ (rasterio_merge w [] = inl e ∨ e = Exn IndexError "list index out of range")
    ∧ fs st' = fs st.
Proof.
  intros (Hauth & Hinit & Hurls) Hdir Hno Hscan.
  unfold process, initialize_ee, emit. msimpl.
  rewrite Hauth. msimpl. rewrite Hinit. msimpl.
  match goal with |- context [run (resolve_urls w ?img 0 ?regions) ?s0] =>
    destruct (resolve_urls_frame w img regions 0 s0) as (Hfs1 & _ & _);
    destruct (resolve_urls_returns img regions 0 s0 Hurls) as [urls Hret];
    destruct (run (resolve_urls w img 0 regions) s0) as [[urls'|e] s1] end;
    cbn [fst snd] in *; [|done].
  msimpl. unfold download_images. msimpl. rewrite Hdir.
  destruct (download_loop_no_download output_folder urls' 0 s1 Hno) as [Hret2 Hfs2].
  destruct (run (download_loop w output_folder 0 urls') s1) as [[[]|e] s2];
    cbn [fst snd] in *; [|done].
  msimpl.
  destruct (mosaic_raises_on_empty_scan [output_folder] "mosaic_output.tif" s2)
    as (e & Hraise & Hwhich & Hfs3).
  { by rewrite Hfs2, Hfs1. }
  destruct (run (mosaic_tif_images w [output_folder] "mosaic_output.tif") s2)
    as [[[]|e'] s3]; cbn [fst snd] in *; [done|].
  injection Hraise as ->. exists e, s3. split; [done|]. split; [done|].
  by rewrite Hfs3, Hfs2, Hfs1.
Qed.

End PipelineFailures.

(** Every download is answered 404 and the folder is empty. *)
Lemma process_fails_without_tiles_witness :
  catalog_answers (status_world 404 "Not Found")
  ∧ no_download (status_world 404 "Not Found")
  ∧ ∃ e st',
      run (process test_splitter (status_world 404 "Not Found") test_aoi 4 "2023-01-01"
             "2023-01-31" "downloaded_images") empty_state = (Raise e, st')
      ∧ fs st' = ∅.
Proof.
  assert (Hc : catalog_answers (status_world 404 "Not Found")).
  { split; [done|]. split; [done|]. intros k img. by eexists. }
  assert (Hn : no_download (status_world 404 "Not Found")).
  { intros i u. cbn. lia. }
  split; [exact Hc|]. split; [exact Hn|].
  destruct (process_fails_without_tiles test_splitter (status_world 404 "Not Found")
              test_aoi 4 "2023-01-01" "2023-01-31" "downloaded_images" empty_state
              Hc eq_refl Hn eq_refl) as (e & st' & Hrun & _ & Hfs).
  by exists e, st'.
Defined.

Lemma requests_not_local img regions :
  Forall (λ e, is_local_event e = false) (map (export_request img) regions).
Proof. induction regions as [|r rs IH]; by constructor. Qed.

(** Catalog first, downloads next, merge last.  The events of one
    invocation of [process] are, in this order: the calls to the catalog
    (authentication, initialization, export requests), then the HTTP
    requests of the downloads, then at most one call of [merge].  So every
    download URL has been obtained before the first download starts. *)
Theorem process_event_order
    (split_bounds : ee_geometry → Z → list ee_geometry) w aoi num_splits
    start_date end_date output_folder st :
  ∃ catalog gets merges,
    trace (run (process split_bounds w aoi num_splits start_date end_date
                  output_folder) st).2
    = (trace st ++ catalog ++ gets ++ merges)%list
    ∧ Forall (λ e, is_local_event e = false) catalog
    ∧ Forall (λ e, is_http_get e = true) gets
    ∧ (merges = [] ∨ ∃ inputs, merges = [EvMerge inputs]).
Proof.
  unfold process, initialize_ee, emit. msimpl.
  destruct (ee_Authenticate w) as [e|]; msimpl.
  { exists [EvAuthenticate], [], []. cbn.
    split; [done|]. split; [by repeat constructor|]. split; [done|by left]. }
  destruct (ee_Initialize w "ee-bordamit") as [e|]; msimpl.
  { exists [EvAuthenticate; EvInitialize "ee-bordamit"], [], []. cbn.
    rewrite <-app_assoc.
    split; [done|]. split; [by repeat constructor|]. split; [done|by left]. }
  fold (ndvi_clipped_of aoi start_date end_date).
  set (regions := split_bounds (FcGeometry aoi) num_splits).
  set (s0 := set_trace _ (set_trace _ st)).
  destruct (resolve_urls_trace w (ndvi_clipped_of aoi start_date end_date) regions 0 s0)
    as (k & _ & Htrace & _ & _).
  assert (Hs0 : trace s0 = (trace st ++ [EvAuthenticate; EvInitialize "ee-bordamit"])%list).
  { subst s0. cbn. by rewrite <-app_assoc. }
  set (catalog := ([EvAuthenticate; EvInitialize "ee-bordamit"]
                   ++ map (export_request (ndvi_clipped_of aoi start_date end_date))
                          (take k regions))%list).
  assert (Hcatalog : Forall (λ e, is_local_event e = false) catalog).
  { apply Forall_app. split; [by repeat constructor|apply requests_not_local]. }
  destruct (run (resolve_urls w _ 0 regions) s0) as [[urls|e] s1]; cbn [fst snd] in *.
  2:{ exists catalog, [], []. rewrite Htrace, Hs0, !app_nil_r, <-app_assoc.
      split; [done|]. split; [done|]. split; [done|by left]. }
  pose proof (download_loop_frame w output_folder urls 0 s1) as [Hdl _].
  unfold download_images. msimpl.
  destruct (os_makedirs w output_folder); msimpl.
  { exists catalog, [], []. rewrite Htrace, Hs0, !app_nil_r, <-app_assoc.
    split; [done|]. split; [done|]. split; [done|by left]. }
  destruct Hdl as [_ (gets & Hgets & Hlocal) _ _].
  destruct (run (download_loop w output_folder 0 urls) s1) as [[[]|e] s2];
    cbn [fst snd] in *.
  2:{ exists catalog, gets, []. rewrite Hgets, Htrace, Hs0, !app_nil_r, <-!app_assoc.
      split; [done|]. split; [done|]. split; [done|by left]. }
  msimpl.
  destruct (mosaic_frame w [output_folder] "mosaic_output.tif" s2)
    as (_ & _ & Hmerge & _).
  destruct (run (mosaic_tif_images w [output_folder] "mosaic_output.tif") s2)
    as [[[]|e] s3]; cbn [fst snd] in *; msimpl; cbn [fst snd].
  all: destruct Hmerge as [Hm|Hm];
    [exists catalog, gets, []
    |exists catalog, gets, [EvMerge (scan_folders (fs s2) [output_folder])]];
    rewrite Hm, Hgets, Htrace, Hs0, ?app_nil_r, <-!app_assoc;
    (split; [done|]; split; [done|]; split; [done|]);
    [by left|right; by eexists].
Qed.

(** No session, no work.  When the authentication or the initialization
    raises, [process] ends with that exception before anything else is
    asked: no export request and no download is sent, and the store, the
    handles and the output are as before. *)
Theorem process_stops_without_session
    (split_bounds : ee_geometry → Z → list ee_geometry) w aoi num_splits
    start_date end_date output_folder st e :
  ee_Authenticate w = Some e
  ∨ (ee_Authenticate w = None ∧ ee_Initialize w "ee-bordamit" = Some e) →
  ∃ st',
    run (process split_bounds w aoi num_splits start_date end_date output_folder) st
    = (Raise e, st')
    ∧ fs st' = fs st ∧ handles st' = handles st ∧ stdout st' = stdout st
    ∧ List.filter is_export_request (trace st') = List.filter is_export_request (trace st)
    ∧ List.filter is_http_get (trace st') = List.filter is_http_get (trace st).
Proof.
  intros [Hauth|[Hauth Hinit]]; unfold process, initialize_ee, emit; msimpl;
    rewrite Hauth; msimpl; [|rewrite Hinit; msimpl];
    (eexists; split; [reflexivity|]); cbn;
    rewrite ?List.filter_app; cbn; by rewrite ?app_nil_r.
Qed.

Lemma process_stops_without_session_witness :
  ∃ st',
    run (process test_splitter locked_world test_aoi 4 "2023-01-01" "2023-01-31"
           "downloaded_images") two_tiles_state
    = (Raise (Exn EEException "Please authorize access to your Earth Engine account"), st')
    ∧ fs st' = fs two_tiles_state
    ∧ trace st' = [EvAuthenticate].
Proof.
  destruct (process_stops_without_session test_splitter locked_world test_aoi 4
              "2023-01-01" "2023-01-31" "downloaded_images" two_tiles_state
              (Exn EEException "Please authorize access to your Earth Engine account")
              (or_introl eq_refl)) as (st' & Hrun & Hfs & _).
  exists st'. split; [exact Hrun|]. split; [exact Hfs|].
  vm_compute in Hrun. by injection Hrun as <-.
Defined.

(** ** More on the index *)

Lemma normalized_difference_range a b v :
  normalized_difference a b = Some v → (-1 <= v /\ v <= 1)%Q.
Proof.
  unfold normalized_difference. destruct a as [a|], b as [b|]; try done.
  destruct (Qle_bool 0 a) eqn:Ha; [|done]. destruct (Qle_bool 0 b) eqn:Hb; [|done].
  cbn [negb orb]. destruct (Qeq_bool (a + b) 0) eqn:Hsum; [done|].
  intros [= <-]. apply Qle_bool_iff in Ha, Hb.
  assert (Hne : ¬ (a + b == 0)%Q).
  { intros H. apply Qeq_bool_iff in H. congruence. }
  assert (Hpos : (0 < a + b)%Q) by lra.
  split.
  - apply Qle_shift_div_l; [done|]. lra.
  - apply Qle_shift_div_r; [done|]. lra.
Qed.

(** The index stays between -1 and 1.  For an image that has the bands B8
    and B4, every pixel of the band that [compute_ndvi] produces either has
    no value or has a value between -1 and 1. *)
Theorem compute_ndvi_range composite inside image r (nir red ndvi : band) :
  pixels composite inside image = Some r →
  band_of "B8" r = Some nir →
  band_of "B4" r = Some red →
  pixels composite inside (compute_ndvi image) = Some [("NDVI", ndvi)] →
  ∀ p v, ndvi p = Some v → (-1 <= v /\ v <= 1)%Q.
Proof.
  intros Himg Hnir Hred. unfold compute_ndvi.
  cbn [pixels]. rewrite Himg, Hnir, Hred. cbn [length Nat.eqb zip map snd zip_with].
  intros [= <-] p v Hv. by eapply normalized_difference_range.
Qed.

Lemma compute_ndvi_range_witness :
  ∃ ndvi : band,
    pixels flat_composite (λ _ _, true)
      (compute_ndvi (load_sentinel_image_collection test_aoi "2023-01-01" "2023-01-31"))
    = Some [("NDVI", ndvi)]
    ∧ ∀ p v, ndvi p = Some v → (-1 <= v /\ v <= 1)%Q.
Proof.
  eexists. split; [reflexivity|].
  exact (compute_ndvi_range flat_composite (λ _ _, true)
           (load_sentinel_image_collection test_aoi "2023-01-01" "2023-01-31")
           _ (λ _, Some 200%Q) (λ _, Some 100%Q) _ eq_refl eq_refl eq_refl eq_refl).
Defined.

(** What is exported for a sub-region.  The image of an export request is
    the mean of the Sentinel-2 collection filtered by the AOI and the date
    range, reduced to the single band NDVI and clipped twice: the value of
    a pixel is the normalized difference of B8 and B4 where the pixel lies
    both in the AOI and in the sub-region, and the pixel is masked
    elsewhere. *)
Theorem exported_image_pixels composite inside aoi start_date end_date region
    (nir red : band) :
  band_of "B8" (composite (FilterDate (FilterBounds
                  (ImageCollection "COPERNICUS/S2_HARMONIZED") aoi) start_date end_date))
  = Some nir →
  band_of "B4" (composite (FilterDate (FilterBounds
                  (ImageCollection "COPERNICUS/S2_HARMONIZED") aoi) start_date end_date))
  = Some red →
  ∃ exported : band,
    pixels composite inside
      (Clip (clip_image_to_aoi
               (compute_ndvi (load_sentinel_image_collection aoi start_date end_date)) aoi)
            (ByGeometry region))
    = Some [("NDVI", exported)]
    ∧ ∀ p, exported p
           = if inside (ByGeometry region) p && inside (ByCollection aoi) p
             then normalized_difference (nir p) (red p)
             else None.
Proof.
  intros Hnir Hred.
  unfold clip_image_to_aoi, compute_ndvi, load_sentinel_image_collection.
  cbn [pixels]. rewrite Hnir, Hred.
  cbn [length Nat.eqb zip map snd fst zip_with].
  eexists. split; [reflexivity|]. intros p. cbn beta.
  by destruct (inside (ByGeometry region) p), (inside (ByCollection aoi) p).
Qed.

Lemma exported_image_pixels_witness :
  ∃ exported : band,
    pixels flat_composite (λ c p, match c with
                                  | ByCollection _ => true
                                  | ByGeometry _ => (0 <=? p.1)%Z
                                  end)
      (Clip (clip_image_to_aoi
               (compute_ndvi (load_sentinel_image_collection test_aoi "2023-01-01"
                                "2023-01-31")) test_aoi)
            (ByGeometry (Rectangle unit_box)))
    = Some [("NDVI", exported)]
    ∧ exported (-1, 0)%Z = None
    ∧ exported (1, 0)%Z = Some ((200 - 100) / (200 + 100))%Q.
Proof.
  destruct (exported_image_pixels flat_composite
              (λ c p, match c with
                      | ByCollection _ => true
                      | ByGeometry _ => (0 <=? p.1)%Z
                      end)
              test_aoi "2023-01-01" "2023-01-31" (Rectangle unit_box)
              (λ _, Some 200%Q) (λ _, Some 100%Q) eq_refl eq_refl)
    as (exported & Hpix & Hval).
  exists exported. split; [exact Hpix|]. split; rewrite Hval; reflexivity.
Defined.
